(** * Kelly: the emotion catalog and the intent pipeline

    A shallow embedding of [src/core/emotion_engine.cpp] and
    [src/core/intent_processor.cpp], and the properties of the catalog,
    of its queries and of the wound -> emotion -> rule-break -> parameter
    pipeline.

    Conventions.
    - A C++ [float] is an IEEE 754 binary32 number: [spec_float] with a
      24-bit significand and round-to-nearest-even, every operation rounded
      on its own (no excess precision, no fused multiply-add).
    - [std::unordered_map<int, EmotionNode>] is a [gmap Z EmotionNode.t];
      [std::map<std::string, std::any>] is a [gmap string any].
    - A [const EmotionNode*] into the catalog is an [option EmotionNode.t],
      [nullptr] being [None].
    - Member functions that change their object take it and return it. *)

From Stdlib Require Import ZArith.
From Stdlib Require Import Floats.SpecFloat.
From stdpp Require Import gmap strings list fin_maps.

Local Open Scope Z_scope.

(** ** binary32 arithmetic *)

Module F32.

Definition prec : Z := 24.
Definition emax : Z := 128.

Definition t : Type := spec_float.

(** Conversion of an [int] to [float] (exact below 2^24). *)
Definition of_int (z : Z) : t := binary_normalize prec emax z 0 false.

Definition opp : t → t := SFopp.
Definition abs : t → t := SFabs.
Definition add : t → t → t := SFadd prec emax.
Definition sub : t → t → t := SFsub prec emax.
Definition mul : t → t → t := SFmul prec emax.
Definition div : t → t → t := SFdiv prec emax.
Definition sqrt : t → t := SFsqrt prec emax.

Definition eqb : t → t → bool := SFeqb.
Definition ltb : t → t → bool := SFltb.
Definition gtb (x y : t) : bool := SFltb y x.

(** The literal with the decimal value [h / 100], as the compiler rounds
    it: both [h] and [100] are exact and the quotient is rounded once. *)
Definition centi (h : Z) : t := div (of_int h) (of_int 100).

Definition zero : t := of_int 0.
Definition one : t := centi 100.

(** The numbers a computation on finite inputs can end in. *)
Definition is_finite (x : t) : bool :=
  match x with
  | S754_zero _ | S754_finite _ _ _ => true
  | _ => false
  end.

#[global] Instance eq_dec : EqDecision t.
Proof. solve_decision. Defined.

End F32.

(** ** Data model *)

(** Modelled from the spec: [enum class EmotionCategory] is declared in
    [emotion_engine.h], which is not among the sources; the eight tags are
    the ones [initializeEmotions] names, in the order it names them. *)
Inductive EmotionCategory :=
  Joy | Sadness | Anger | Fear | Surprise | Disgust | Trust | Anticipation.

#[global] Instance EmotionCategory_eq_dec : EqDecision EmotionCategory.
Proof. solve_decision. Defined.

(** Modelled from the spec: the [musicalAttributes] member of [EmotionNode]
    ([emotion_engine.h] is not among the sources); its three members are the
    ones [initializeEmotions] initialises and [compileMusicalParams] reads. *)
Module MusicalAttributes.
Record t := mk {
  tempoModifier : F32.t;
  mode : string;
  dynamics : F32.t
}.
End MusicalAttributes.

(** Modelled from the spec: [struct EmotionNode] ([emotion_engine.h] is not
    among the sources). The members follow the positions of the aggregate
    initialiser in [initializeEmotions]; the seventh, initialised with [{}],
    is an empty sequence. *)
Module EmotionNode.
Record t := mk {
  id : Z;
  name : string;
  category : EmotionCategory;
  intensity : F32.t;
  valence : F32.t;
  arousal : F32.t;
  relatedEmotions : list Z;
  musicalAttributes : MusicalAttributes.t
}.
End EmotionNode.

(** [std::any] as it is used here: the alternatives the pipeline stores. *)
Inductive any :=
| AnyInt (z : Z)
| AnyBool (b : bool)
| AnyFloat (x : F32.t)
| AnyString (s : string).

Module Wound.
Record t := mk {
  description : string;
  intensity : F32.t;
  source : string
}.
End Wound.

Module RuleBreak.
Record t := mk {
  ruleType : string;
  severity : F32.t;
  description : string;
  musicalImpact : gmap string any
}.
End RuleBreak.

Module IntentResult.
Record t := mk {
  wound : Wound.t;
  emotion : option EmotionNode.t;
  ruleBreaks : list RuleBreak.t;
  musicalParams : gmap string any
}.
End IntentResult.

(** ** The emotion catalog *)

Module EmotionEngine.

(** The local [struct Variant { name; valence; arousal }]. *)
Record Variant := mkVariant {
  vname : string;
  vvalence : F32.t;
  varousal : F32.t
}.

Definition V (n : string) (valence arousal : Z) : Variant :=
  mkVariant n (F32.centi valence) (F32.centi arousal).

Definition categoryVariants : list (EmotionCategory * list Variant) :=
  [ (Joy,
     [ V "euphoria" 100 100; V "ecstasy" 95 95; V "elation" 85 90;
       V "delight" 80 70; V "happiness" 70 60; V "contentment" 70 30;
       V "serenity" 60 20; V "satisfaction" 50 40; V "cheerfulness" 60 50 ]);
    (Sadness,
     [ V "grief" (-90) 70; V "despair" (-95) 60; V "sorrow" (-80) 50;
       V "melancholy" (-60) 30; V "gloom" (-50) 40;
       V "disappointment" (-40) 30;
       V "loneliness" (-60) 20; V "nostalgia" (-30) 20;
       V "wistfulness" (-20) 15 ]);
    (Anger,
     [ V "rage" (-80) 100; V "fury" (-85) 95; V "wrath" (-75) 90;
       V "hostility" (-60) 70; V "resentment" (-50) 50;
       V "annoyance" (-40) 50;
       V "irritation" (-35) 45; V "frustration" (-45) 55;
       V "bitterness" (-50) 40 ]);
    (Fear,
     [ V "terror" (-90) 100; V "panic" (-85) 95; V "horror" (-80) 90;
       V "dread" (-70) 70; V "anxiety" (-50) 80; V "worry" (-40) 60;
       V "unease" (-30) 50; V "apprehension" (-35) 55;
       V "nervousness" (-30) 65 ]);
    (Surprise,
     [ V "amazement" 60 95; V "astonishment" 50 90; V "awe" 40 70;
       V "wonder" 50 60; V "shock" (-10) 90; V "startle" 0 85;
       V "bewilderment" (-10) 60; V "confusion" (-20) 50;
       V "curiosity" 30 50 ]);
    (Disgust,
     [ V "revulsion" (-90) 80; V "loathing" (-85) 70;
       V "abhorrence" (-80) 75;
       V "contempt" (-60) 50; V "aversion" (-50) 45; V "distaste" (-40) 35;
       V "dislike" (-30) 30; V "disapproval" (-35) 40;
       V "repugnance" (-70) 60 ]);
    (Trust,
     [ V "admiration" 80 50; V "adoration" 85 60; V "devotion" 75 55;
       V "faith" 70 40; V "confidence" 60 50; V "reliance" 50 35;
       V "acceptance" 40 30; V "respect" 55 40; V "appreciation" 50 45 ]);
    (Anticipation,
     [ V "eagerness" 70 85; V "excitement" 75 90; V "hope" 60 60;
       V "expectation" 40 55; V "vigilance" 10 70; V "interest" 35 50;
       V "optimism" 65 55; V "yearning" 20 60; V "impatience" (-10) 70 ]) ].

Definition intensityLevels : list F32.t :=
  [ F32.centi 100; F32.centi 60; F32.centi 30 ].

(** [(intensity == 1.0f) ? "" : (intensity == 0.6f ? "_mid" : "_low")] *)
Definition suffix (intensity : F32.t) : string :=
  if F32.eqb intensity (F32.centi 100) then ""
  else if F32.eqb intensity (F32.centi 60) then "_mid" else "_low".

(** The aggregate built in the innermost loop body. *)
Definition makeNode (nodeId : Z) (category : EmotionCategory) (v : Variant)
    (intensity : F32.t) : EmotionNode.t :=
  EmotionNode.mk
    nodeId
    (vname v +:+ suffix intensity)
    category
    intensity
    (F32.mul (vvalence v) intensity)
    (F32.mul (varousal v) intensity)
    []
    (MusicalAttributes.mk
       (F32.add F32.one
          (F32.mul (F32.sub (F32.mul (varousal v) intensity) (F32.centi 50))
             (F32.centi 50)))
       (if F32.gtb (vvalence v) (F32.of_int 0) then "major" else "minor")
       intensity).

(** The state the three nested loops thread: the map and [nodeId]. *)
Definition loopState : Type := gmap Z EmotionNode.t * Z.

Definition tierStep (category : EmotionCategory) (v : Variant)
    (st : loopState) (intensity : F32.t) : loopState :=
  (<[st.2 := makeNode st.2 category v intensity]> st.1, st.2 + 1).

Definition variantStep (category : EmotionCategory)
    (st : loopState) (v : Variant) : loopState :=
  foldl (tierStep category v) st intensityLevels.

Definition categoryStep (st : loopState)
    (cv : EmotionCategory * list Variant) : loopState :=
  foldl (variantStep cv.1) st cv.2.

Definition initializeEmotions (nodes_ : gmap Z EmotionNode.t)
  : gmap Z EmotionNode.t :=
  (foldl categoryStep (nodes_, 0) categoryVariants).1.

(** The object: its only member is [nodes_]. *)
Record t := mk { nodes_ : gmap Z EmotionNode.t }.

(** [EmotionEngine::EmotionEngine()] *)
Definition new : t := mk (initializeEmotions ∅).

(** The order in which a range-for visits [nodes_]. The container is
    declared in [emotion_engine.h], which is not among the sources, and a
    hash container fixes no order: the order is a parameter, of which only
    this is known, that every entry is visited once. *)
Class Traversal := {
  iterate : gmap Z EmotionNode.t → list (Z * EmotionNode.t);
  iterate_perm : ∀ m, iterate m ≡ₚ map_to_list m
}.

(** One such order, to run the definitions with. *)
Definition map_order : Traversal :=
  {| iterate := map_to_list; iterate_perm := λ m, reflexivity _ |}.

Section Queries.
Context `{!Traversal}.

Definition getEmotion (self : t) (emotionId : Z) : option EmotionNode.t :=
  nodes_ self !! emotionId.

(** The loop of [findEmotionByName]: return at the first match. *)
Fixpoint findIn (l : list (Z * EmotionNode.t)) (name : string)
  : option EmotionNode.t :=
  match l with
  | [] => None
  | (_, node) :: l' =>
      if String.eqb (EmotionNode.name node) name then Some node
      else findIn l' name
  end.

Definition findEmotionByName (self : t) (name : string)
  : option EmotionNode.t :=
  findIn (iterate (nodes_ self)) name.

Definition calculateDistance (a b : EmotionNode.t) : F32.t :=
  let dv := F32.sub (EmotionNode.valence a) (EmotionNode.valence b) in
  let da := F32.sub (EmotionNode.arousal a) (EmotionNode.arousal b) in
  let di := F32.sub (EmotionNode.intensity a) (EmotionNode.intensity b) in
  F32.sqrt (F32.add (F32.add (F32.mul dv dv) (F32.mul da da))
              (F32.mul di di)).

(** One turn of the loop of [getNearbyEmotions]. *)
Definition nearbyStep (source : EmotionNode.t) (emotionId : Z)
    (threshold : F32.t) (nearby : list EmotionNode.t)
    (entry : Z * EmotionNode.t) : list EmotionNode.t :=
  if bool_decide (entry.1 = emotionId) then nearby
  else if F32.ltb (calculateDistance source entry.2) threshold
       then nearby ++ [entry.2]
       else nearby.

Definition getNearbyEmotions (self : t) (emotionId : Z)
    (threshold : F32.t) : list EmotionNode.t :=
  match getEmotion self emotionId with
  | None => []
  | Some source =>
      foldl (nearbyStep source emotionId threshold) []
        (iterate (nodes_ self))
  end.

End Queries.

End EmotionEngine.

(** ** The intent pipeline *)

Module IntentProcessor.

Record t := mk {
  engine_ : EmotionEngine.t;
  woundHistory_ : list Wound.t;
  ruleBreaks_ : list RuleBreak.t
}.

(** [IntentProcessor::IntentProcessor() = default] *)
Definition new : t := mk EmotionEngine.new [] [].

(** A member function: from the object to a result and the object. *)
Definition M (A : Type) : Type := t → A * t.

#[global] Instance M_ret : MRet M := λ A a self, (a, self).
#[global] Instance M_bind : MBind M :=
  λ A B f m self, let r := m self in f r.1 r.2.

Definition get : M t := λ self, (self, self).
Definition put (self' : t) : M () := λ _, ((), self').

(** [std::tolower] on an [unsigned char], in the "C" locale (the sources
    set no other). *)
Definition tolower (c : Ascii.ascii) : Ascii.ascii :=
  let n := Ascii.N_of_ascii c in
  if (65 <=? n)%N && (n <=? 90)%N then Ascii.ascii_of_N (n + 32) else c.

(** [std::transform(desc.begin(), desc.end(), desc.begin(), f)] *)
Fixpoint transform (f : Ascii.ascii → Ascii.ascii) (s : string) : string :=
  match s with
  | EmptyString => EmptyString
  | String c s' => String (f c) (transform f s')
  end.

Fixpoint starts_with (s needle : string) : bool :=
  match needle, s with
  | EmptyString, _ => true
  | String _ _, EmptyString => false
  | String a needle', String b s' => Ascii.eqb a b && starts_with s' needle'
  end.

(** [s.find(needle)] from position [pos]; [std::string::npos] is [None]. *)
Fixpoint find_from (s needle : string) (pos : nat) : option nat :=
  if starts_with s needle then Some pos
  else match s with
       | EmptyString => None
       | String _ s' => find_from s' needle (S pos)
       end.

Definition find (s needle : string) : option nat := find_from s needle 0.

(** [s.find(needle) != std::string::npos] *)
Definition found (s needle : string) : bool :=
  match find s needle with Some _ => true | None => false end.

(** [params[key] = value] for every entry of [src], in the order of the
    keys. *)
Definition overlay (src params : gmap string any) : gmap string any :=
  map_fold (λ key value acc, <[key := value]> acc) params src.

Definition compileMusicalParams (emotion : EmotionNode.t)
    (ruleBreaks : list RuleBreak.t) : gmap string any :=
  let attrs := EmotionNode.musicalAttributes emotion in
  let params : gmap string any := ∅ in
  let params :=
    <["tempo_modifier" := AnyFloat (MusicalAttributes.tempoModifier attrs)]>
      params in
  let params := <["mode" := AnyString (MusicalAttributes.mode attrs)]> params in
  let params :=
    <["dynamics" := AnyFloat (MusicalAttributes.dynamics attrs)]> params in
  foldl (λ params rb, overlay (RuleBreak.musicalImpact rb) params)
    params ruleBreaks.

(** The three rule breaks, as [emotionToRuleBreaks] fills them in. *)
Definition dynamicsBreak (emotion : EmotionNode.t) : RuleBreak.t :=
  RuleBreak.mk "dynamics" (EmotionNode.intensity emotion)
    "Extreme dynamic contrasts"
    (<["sudden_changes" := AnyBool true]>
       (<["velocity_max" := AnyInt 127]>
          (<["velocity_min" := AnyInt 10]> ∅))).

Definition harmonyBreak (emotion : EmotionNode.t) : RuleBreak.t :=
  RuleBreak.mk "harmony" (F32.abs (EmotionNode.valence emotion))
    "Dissonant intervals and clusters"
    (<["cluster_probability" :=
         AnyFloat (F32.abs (EmotionNode.valence emotion))]>
       (<["allow_dissonance" := AnyBool true]> ∅)).

Definition rhythmBreak (emotion : EmotionNode.t) : RuleBreak.t :=
  RuleBreak.mk "rhythm" (EmotionNode.arousal emotion)
    "Irregular rhythms and syncopation"
    (<["irregular_meters" := AnyBool true]>
       (<["syncopation_level" := AnyFloat (EmotionNode.arousal emotion)]> ∅)).

(** [if (cond) breaks.push_back(rb);] *)
Definition push_if (cond : bool) (rb : RuleBreak.t)
    (breaks : list RuleBreak.t) : list RuleBreak.t :=
  if cond then breaks ++ [rb] else breaks.

Definition emotionToRuleBreaks (emotion : EmotionNode.t)
  : M (list RuleBreak.t) :=
  let breaks : list RuleBreak.t := [] in
  let breaks :=
    push_if (F32.gtb (EmotionNode.intensity emotion) (F32.centi 80))
      (dynamicsBreak emotion) breaks in
  let breaks :=
    push_if (F32.ltb (EmotionNode.valence emotion) (F32.opp (F32.centi 50)))
      (harmonyBreak emotion) breaks in
  let breaks :=
    push_if (F32.gtb (EmotionNode.arousal emotion) (F32.centi 70))
      (rhythmBreak emotion) breaks in
  self ← get;
  put (mk (engine_ self) (woundHistory_ self) (ruleBreaks_ self ++ breaks));;
  mret breaks.

Section Pipeline.
Context `{!EmotionEngine.Traversal}.

Definition processWound (wound : Wound.t) : M (option EmotionNode.t) :=
  self ← get;
  put (mk (engine_ self) (woundHistory_ self ++ [wound])
         (ruleBreaks_ self));;
  let desc := transform tolower (Wound.description wound) in
  if found desc "loss" || found desc "grief" then
    mret (EmotionEngine.findEmotionByName (engine_ self) "grief")
  else if found desc "anger" || found desc "rage" then
    mret (EmotionEngine.findEmotionByName (engine_ self) "rage")
  else if found desc "fear" || found desc "anxiety" then
    mret (EmotionEngine.findEmotionByName (engine_ self) "anxiety")
  else
    mret (EmotionEngine.findEmotionByName (engine_ self) "melancholy").

Definition processIntent (wound : Wound.t) : M IntentResult.t :=
  emotion ← processWound wound;
  breaks ← match emotion with
           | Some e => emotionToRuleBreaks e
           | None => mret []
           end;
  mret (IntentResult.mk wound emotion breaks
          match emotion with
          | Some e => compileMusicalParams e breaks
          | None => ∅
          end).

End Pipeline.

End IntentProcessor.

(** ** Specification-side definitions *)

Module Spec.
Import EmotionEngine.

(** The catalog a constructed engine holds. *)
Definition catalog : gmap Z EmotionNode.t := nodes_ new.

(** Generation order, in the words of the specification: categories
    outermost, the variants of a category next, the tiers innermost. *)
Definition generationOrder : list (EmotionCategory * Variant * F32.t) :=
  cv ← categoryVariants; v ← cv.2; lvl ← intensityLevels; [(cv.1, v, lvl)].

(** The entry generated at position [k] from a triple. *)
Definition entry (k : Z) (x : EmotionCategory * Variant * F32.t)
  : EmotionNode.t :=
  makeNode k x.1.1 x.1.2 x.2.

(** One turn of the innermost loop, on a triple. *)
Definition emit (st : loopState) (x : EmotionCategory * Variant * F32.t)
  : loopState :=
  tierStep x.1.1 x.1.2 st x.2.

(** The name suffix of the tier at index [t] of [intensityLevels]. *)
Definition tierSuffix (t : nat) : string :=
  match t with
  | 0%nat => ""
  | 1%nat => "_mid"
  | _ => "_low"
  end.

(** The catalog entries, in the order of their keys. *)
Definition entries : list EmotionNode.t := (map_to_list catalog).*2.

(** [needle] occurs in [s]. *)
Definition contains (s needle : string) : Prop :=
  ∃ pre post, s = pre +:+ needle +:+ post.

(** Lower case, in the words of the specification: each of the letters
    A to Z becomes the letter of the same place in a to z, and every other
    character stays as it is. *)
Definition upper_letters : string := "ABCDEFGHIJKLMNOPQRSTUVWXYZ".
Definition lower_letters : string := "abcdefghijklmnopqrstuvwxyz".

Fixpoint lower_of (uppers lowers : string) (c : Ascii.ascii) : Ascii.ascii :=
  match uppers, lowers with
  | String u uppers', String l lowers' =>
      if Ascii.eqb c u then l else lower_of uppers' lowers' c
  | _, _ => c
  end.

Definition lower_letter (c : Ascii.ascii) : Ascii.ascii :=
  lower_of upper_letters lower_letters c.

Fixpoint lowercase (s : string) : string :=
  match s with
  | EmptyString => EmptyString
  | String c s' => String (lower_letter c) (lowercase s')
  end.

(** The point of an entry in (valence, arousal, intensity) space, compared
    as [==] compares floats. *)
Definition same_point (a b : EmotionNode.t) : bool :=
  F32.eqb (EmotionNode.valence a) (EmotionNode.valence b)
  && F32.eqb (EmotionNode.arousal a) (EmotionNode.arousal b)
  && F32.eqb (EmotionNode.intensity a) (EmotionNode.intensity b).

(** For one pair of entries: the distance is a number, and it is zero
    exactly when the two are the same point. *)
Definition distance_law (a b : EmotionNode.t) : bool :=
  let d := calculateDistance a b in
  F32.is_finite d
  && Bool.eqb (F32.eqb d F32.zero) (same_point a b)
  && Bool.eqb (F32.eqb d F32.zero) (same_point b a).

(** The law on every pair of a list, each unordered pair taken once. *)
Fixpoint distance_law_pairs (l : list EmotionNode.t) : bool :=
  match l with
  | [] => true
  | a :: l' =>
      F32.eqb (calculateDistance a a) F32.zero
      && forallb (distance_law a) l
      && distance_law_pairs l'
  end.

(** No two entries of a map share a name. *)
Definition unique_names (m : gmap Z EmotionNode.t) : Prop :=
  ∀ i j a b,
    m !! i = Some a → m !! j = Some b →
    EmotionNode.name a = EmotionNode.name b → i = j.

(** Every entry of a map is stored under its own [id]. *)
Definition keyed_by_id (m : gmap Z EmotionNode.t) : Prop :=
  ∀ k n, m !! k = Some n → EmotionNode.id n = k.

(** The base-tier entries the classification can answer with. *)
Definition griefNode : EmotionNode.t :=
  makeNode 27 Sadness (V "grief" (-90) 70) (F32.centi 100).
Definition rageNode : EmotionNode.t :=
  makeNode 54 Anger (V "rage" (-80) 100) (F32.centi 100).
Definition anxietyNode : EmotionNode.t :=
  makeNode 93 Fear (V "anxiety" (-50) 80) (F32.centi 100).
Definition melancholyNode : EmotionNode.t :=
  makeNode 36 Sadness (V "melancholy" (-60) 30) (F32.centi 100).

(** The two entries the specification tests the rules on. *)
Definition terrorNode : EmotionNode.t :=
  makeNode 81 Fear (V "terror" (-90) 100) (F32.centi 100).
Definition contentmentLowNode : EmotionNode.t :=
  makeNode 17 Joy (V "contentment" 70 30) (F32.centi 30).

(** The entries the mapping of [compileMusicalParams] starts from. *)
Definition baseParams (emotion : EmotionNode.t) : gmap string any :=
  let attrs := EmotionNode.musicalAttributes emotion in
  <["dynamics" := AnyFloat (MusicalAttributes.dynamics attrs)]>
    (<["mode" := AnyString (MusicalAttributes.mode attrs)]>
       (<["tempo_modifier" :=
            AnyFloat (MusicalAttributes.tempoModifier attrs)]> ∅)).

(** The public member functions of [IntentProcessor]. *)
Inductive Call :=
| CallProcessWound (wound : Wound.t)
| CallEmotionToRuleBreaks (emotion : EmotionNode.t)
| CallProcessIntent (wound : Wound.t).

(** A call, for what it does to the object. *)
Definition call `{!Traversal} (c : Call) (self : IntentProcessor.t)
  : IntentProcessor.t :=
  match c with
  | CallProcessWound wound => (IntentProcessor.processWound wound self).2
  | CallEmotionToRuleBreaks emotion =>
      (IntentProcessor.emotionToRuleBreaks emotion self).2
  | CallProcessIntent wound => (IntentProcessor.processIntent wound self).2
  end.

(** A sequence of calls on one object. *)
Definition run `{!Traversal} (calls : list Call) (self : IntentProcessor.t)
  : IntentProcessor.t :=
  foldl (λ self c, call c self) self calls.

End Spec.

(** ** Definitions for the further properties *)

Module Laws.
Import EmotionEngine.

(** [x <= y] on floats. *)
Definition leb : F32.t → F32.t → bool := SFleb.

(** A float that is not below zero: a zero, a positive number, plus
    infinity, or not a number. *)
Definition not_negative (x : F32.t) : bool :=
  match x with
  | S754_finite true _ _ | S754_infinity true => false
  | _ => true
  end.

(** The place of a float that is a number in the order of the floats:
    sign class first, then exponent, then significand. *)
Definition rank (x : F32.t) : Z * Z * Z :=
  match x with
  | S754_infinity true => (-2, 0, 0)
  | S754_finite true m e => (-1, - e, - Z.pos m)
  | S754_zero _ | S754_nan => (0, 0, 0)
  | S754_finite false m e => (1, e, Z.pos m)
  | S754_infinity false => (2, 0, 0)
  end.

Definition lex_lt (p q : Z * Z * Z) : Prop :=
  p.1.1 < q.1.1
  ∨ (p.1.1 = q.1.1 ∧ (p.1.2 < q.1.2 ∨ (p.1.2 = q.1.2 ∧ p.2 < q.2))).

Definition is_nan (x : F32.t) : bool :=
  match x with S754_nan => true | _ => false end.

(** Another order of visiting the container: [map_order] backwards. *)
Definition reverse_order : Traversal :=
  {| iterate := λ m, reverse (map_to_list m);
     iterate_perm := λ m, reverse_Permutation (map_to_list m) |}.

(** An order of visiting the container that starts at a given key. *)
Definition front_order (i : Z) : Traversal :=
  {| iterate := λ m,
       match m !! i with
       | Some x => (i, x) :: map_to_list (delete i m)
       | None => map_to_list m
       end;
     iterate_perm := λ m,
       match m !! i as o
         return m !! i = o →
                match o with
                | Some x => (i, x) :: map_to_list (delete i m)
                | None => map_to_list m
                end ≡ₚ map_to_list m
       with
       | Some x => λ E, map_to_list_delete m i x E
       | None => λ _, reflexivity _
       end eq_refl |}.

(** Two entries with one name, under the ids 0 and 1. *)
Definition twins : EmotionEngine.t :=
  EmotionEngine.mk
    (<[1 := makeNode 1 Joy (V "echo" 50 50) (F32.centi 100)]>
       (<[0 := makeNode 0 Sadness (V "echo" (-50) 50) (F32.centi 100)]> ∅)).

(** [lo <= x <= hi] on floats. *)
Definition between (lo hi x : F32.t) : bool := leb lo x && leb x hi.

(** The coordinates of a node are in their ranges: valence in [-1, 1],
    arousal in [0, 1], intensity one of the three tiers, the tempo
    modifier in [0.75, 1.25], and [dynamics] is the intensity. *)
Definition in_ranges (n : EmotionNode.t) : bool :=
  between (F32.opp F32.one) F32.one (EmotionNode.valence n)
  && between F32.zero F32.one (EmotionNode.arousal n)
  && existsb (F32.eqb (EmotionNode.intensity n)) intensityLevels
  && between (F32.centi 75) (F32.centi 125)
       (MusicalAttributes.tempoModifier (EmotionNode.musicalAttributes n))
  && F32.eqb (MusicalAttributes.dynamics (EmotionNode.musicalAttributes n))
       (EmotionNode.intensity n).

(** The mode of a node is "major" when its own valence is above zero and
    "minor" otherwise. *)
Definition mode_follows_valence (n : EmotionNode.t) : bool :=
  bool_decide
    (MusicalAttributes.mode (EmotionNode.musicalAttributes n)
     = if F32.gtb (EmotionNode.valence n) F32.zero then "major" else "minor").

(** A pipeline on an engine without entries. *)
Definition blank : IntentProcessor.t :=
  IntentProcessor.mk (EmotionEngine.mk ∅) [] [].

(** The rule breaks of a node. *)
Definition breaks (n : EmotionNode.t) : list RuleBreak.t :=
  (IntentProcessor.emotionToRuleBreaks n blank).1.

(** Every rule break of a node has a severity in [0, 1]. *)
Definition severities_in_unit (n : EmotionNode.t) : bool :=
  forallb (λ rb, between F32.zero F32.one (RuleBreak.severity rb)) (breaks n).

(** The rule breaks a tier allows: at the base tier "dynamics" comes
    first, at the middle tier there is "harmony" at most, at the low tier
    there is none. *)
Definition tier_rule (n : EmotionNode.t) : bool :=
  let types := RuleBreak.ruleType <$> breaks n in
  if F32.eqb (EmotionNode.intensity n) (F32.centi 100)
  then bool_decide (head types = Some "dynamics")
  else if F32.eqb (EmotionNode.intensity n) (F32.centi 60)
       then bool_decide (types = [] ∨ types = ["harmony"])
       else bool_decide (types = []).

(** The wounds a sequence of calls hands to the pipeline. *)
Definition wounds_of (calls : list Spec.Call) : list Wound.t :=
  c ← calls;
  match c with
  | Spec.CallProcessWound wound | Spec.CallProcessIntent wound => [wound]
  | Spec.CallEmotionToRuleBreaks _ => []
  end.

(** The rule breaks a call returns. *)
Definition returned `{!Traversal} (self : IntentProcessor.t) (c : Spec.Call)
  : list RuleBreak.t :=
  match c with
  | Spec.CallProcessWound _ => []
  | Spec.CallEmotionToRuleBreaks emotion =>
      (IntentProcessor.emotionToRuleBreaks emotion self).1
  | Spec.CallProcessIntent wound =>
      IntentResult.ruleBreaks (IntentProcessor.processIntent wound self).1
  end.

End Laws.

(** * Properties *)

(** ** Facts of floating-point arithmetic, at any precision *)

Section FloatFacts.
Variables prec emax : Z.

Lemma binary_round_aux_abs sx sy m e l :
  SFabs (binary_round_aux prec emax sx m e l)
  = SFabs (binary_round_aux prec emax sy m e l).
Proof.
  unfold binary_round_aux.
  destruct (shr_fexp prec emax m e l) as [mrs' e'].
  destruct (shr_fexp prec emax _ e' loc_Exact) as [mrs'' e''].
  destruct (shr_m mrs''); [done| |done].
  by destruct (e'' <=? emax - prec).
Qed.

Lemma binary_normalize_abs_opp m e :
  SFabs (binary_normalize prec emax (- m) e false)
  = SFabs (binary_normalize prec emax m e false).
Proof.
  destruct m as [|p|p]; simpl; [done| |];
    unfold binary_round; destruct (shl_align _ _ _);
    apply binary_round_aux_abs.
Qed.

(** Swapping the operands of a subtraction changes the sign at most. *)
Lemma SFsub_abs_sym x y :
  SFabs (SFsub prec emax x y) = SFabs (SFsub prec emax y x).
Proof.
  destruct x as [sx|sx| |sx mx ex], y as [sy|sy| |sy my ey];
    try (by repeat match goal with b : bool |- _ => destruct b end).
  unfold SFsub. rewrite (Z.min_comm ey ex).
  rewrite <- binary_normalize_abs_opp. f_equal. f_equal. lia.
Qed.

(** A square does not see the sign. *)
Lemma SFmul_self_abs x y :
  SFabs x = SFabs y → SFmul prec emax x x = SFmul prec emax y y.
Proof.
  destruct x as [sx|sx| |sx mx ex], y as [sy|sy| |sy my ey];
    simpl; intros E; simplify_eq;
    by repeat match goal with b : bool |- _ => destruct b end.
Qed.

Lemma SFcompare_refl x : x ≠ S754_nan → SFcompare x x = Some Eq.
Proof.
  destruct x as [s|s| |s m e]; [done| |done|]; intros _; simpl.
  - by destruct s.
  - rewrite Z.compare_refl, Pos.compare_cont_refl. by destruct s.
Qed.

Lemma SFeqb_refl x : x ≠ S754_nan → SFeqb x x = true.
Proof. intros H. unfold SFeqb. by rewrite SFcompare_refl. Qed.

Lemma SFltb_nan_r x : SFltb x S754_nan = false.
Proof. by destruct x. Qed.

End FloatFacts.

(** ** The catalog builder *)

Section Builder.
Import EmotionEngine Spec.

Lemma foldl_bind_list {A B S} (f : S → B → S) (g : A → list B)
    (l : list A) (s : S) :
  foldl f s (l ≫= g) = foldl (λ s a, foldl f s (g a)) s l.
Proof.
  revert s. induction l as [|a l IH]; intros s; [done|].
  rewrite bind_cons, foldl_app, IH. done.
Qed.

Lemma foldl_step_ext {A S} (f g : S → A → S) (l : list A) (s : S) :
  (∀ s a, f s a = g s a) → foldl f s l = foldl g s l.
Proof.
  intros E. revert s. induction l as [|a l IH]; intros s; [done|].
  cbn [foldl]. by rewrite E, IH.
Qed.

(** The three nested loops are one loop over the generation order. *)
Lemma loops_flatten (cvs : list (EmotionCategory * list Variant)) st :
  foldl categoryStep st cvs
  = foldl emit st
      (cv ← cvs; v ← cv.2; lvl ← intensityLevels; [(cv.1, v, lvl)]).
Proof.
  rewrite foldl_bind_list. apply foldl_step_ext. intros s [cat vs].
  unfold categoryStep. cbn [fst snd]. rewrite foldl_bind_list.
  apply foldl_step_ext. intros s' v. unfold variantStep.
  rewrite foldl_bind_list. apply foldl_step_ext. by intros s'' lvl.
Qed.

Lemma emit_lookup l st k :
  (foldl emit st l).1 !! k
  = if decide (st.2 ≤ k < st.2 + Z.of_nat (length l))
    then entry k <$> l !! Z.to_nat (k - st.2)
    else st.1 !! k.
Proof.
  revert st. induction l as [|x l IH]; intros [m n]; cbn [foldl length].
  { case_decide; [lia|done]. }
  rewrite IH.
  change ((emit (m, n) x).2) with (n + 1).
  change ((emit (m, n) x).1) with (<[n := entry n x]> m).
  cbn [fst snd].
  case_decide as H1; case_decide as H2; try lia.
  - replace (Z.to_nat (k - n)) with (S (Z.to_nat (k - (n + 1)))) by lia.
    reflexivity.
  - assert (k = n) as -> by lia.
    rewrite lookup_insert_eq, Z.sub_diag. done.
  - rewrite lookup_insert_ne by lia. done.
Qed.

Lemma generationOrder_length : length generationOrder = 216%nat.
Proof. vm_compute. reflexivity. Qed.

(** What [initializeEmotions] leaves at each key, on any map. *)
Lemma initializeEmotions_lookup m k :
  initializeEmotions m !! k
  = if decide (0 ≤ k < 216)
    then entry k <$> generationOrder !! Z.to_nat k
    else m !! k.
Proof.
  unfold initializeEmotions. rewrite loops_flatten.
  fold generationOrder. rewrite emit_lookup. cbn [fst snd].
  rewrite generationOrder_length, Z.sub_0_r.
  repeat case_decide; (done || lia).
Qed.

Lemma catalog_lookup k :
  catalog !! k
  = if decide (0 ≤ k < 216)
    then entry k <$> generationOrder !! Z.to_nat k
    else None.
Proof.
  unfold catalog, new. cbn [nodes_]. rewrite initializeEmotions_lookup.
  case_decide; [done|]. apply lookup_empty.
Qed.

Lemma catalog_lookup_Some k n :
  catalog !! k = Some n →
  0 ≤ k < 216 ∧ ∃ x, generationOrder !! Z.to_nat k = Some x ∧ n = entry k x.
Proof.
  rewrite catalog_lookup. case_decide; [|done].
  intros (x & Hx & ->)%fmap_Some. eauto.
Qed.

Lemma catalog_lookup_is_Some k : is_Some (catalog !! k) ↔ 0 ≤ k < 216.
Proof.
  rewrite catalog_lookup. case_decide as H.
  - split; [done|]. intros _. apply fmap_is_Some, lookup_lt_is_Some.
    rewrite generationOrder_length. lia.
  - split; [by intros [? ?]|done].
Qed.
End Builder.

Section Catalog.
Import EmotionEngine Spec.

(** Position in a concatenation of blocks of one length. *)
Lemma lookup_bind_uniform {A B} (g : A → list B) (n : nat) (l : list A)
    (i j : nat) a b :
  Forall (λ a, length (g a) = n) l →
  l !! i = Some a → g a !! j = Some b →
  (l ≫= g) !! (n * i + j)%nat = Some b.
Proof.
  intros Hlen. revert i. induction Hlen as [|a' l Ha' _ IH]; intros i.
  { by rewrite lookup_nil. }
  rewrite bind_cons. destruct i as [|i]; intros Hi Hj.
  - injection Hi as ->. rewrite lookup_app_l.
    + by replace (n * 0 + j)%nat with j by lia.
    + apply lookup_lt_Some in Hj. lia.
  - rewrite lookup_app_r by lia.
    replace (n * S i + j - length (g a'))%nat with (n * i + j)%nat by lia.
    by apply IH.
Qed.

Lemma categoryVariants_blocks :
  Forall (λ cv : EmotionCategory * list Variant,
            length (v ← cv.2; lvl ← intensityLevels; [(cv.1, v, lvl)]) = 27%nat)
    categoryVariants.
Proof. compute_done. Qed.

Lemma generationOrder_index (c v t : nat) cat vs var lvl :
  categoryVariants !! c = Some (cat, vs) →
  vs !! v = Some var →
  intensityLevels !! t = Some lvl →
  generationOrder !! (27 * c + (3 * v + t))%nat = Some (cat, var, lvl).
Proof.
  intros Hc Hv Ht. unfold generationOrder.
  eapply lookup_bind_uniform; [apply categoryVariants_blocks|exact Hc|].
  cbn [fst snd]. eapply lookup_bind_uniform; [|exact Hv|].
  - apply Forall_forall. by intros.
  - change (intensityLevels ≫= λ lvl0, [(cat, var, lvl0)])
      with ((λ lvl0, (cat, var, lvl0)) <$> intensityLevels) .
    by rewrite list_lookup_fmap, Ht.
Qed.

Lemma catalog_names_NoDup :
  NoDup ((λ x, vname x.1.2 +:+ suffix x.2) <$> generationOrder).
Proof. compute_done. Qed.

Lemma catalog_name_inj i j n m :
  catalog !! i = Some n → catalog !! j = Some m →
  EmotionNode.name n = EmotionNode.name m → i = j.
Proof.
  intros (Hi & x & Hx & ->)%catalog_lookup_Some
         (Hj & y & Hy & ->)%catalog_lookup_Some E.
  cbn in E.
  assert (Z.to_nat i = Z.to_nat j) as Hij; [|lia].
  eapply (NoDup_lookup _ _ _ _ catalog_names_NoDup).
  - rewrite list_lookup_fmap, Hx. reflexivity.
  - rewrite list_lookup_fmap, Hy. cbn. by rewrite E.
Qed.

Lemma catalog_size : size catalog = 216%nat.
Proof. vm_compute. reflexivity. Qed.

(** C1. A constructed engine holds exactly 216 entries; their keys, which
    are also their [id] members, are exactly 0..215; the entry at
    [27 c + 3 v + t] is the one generated from category [c], variant [v]
    and tier [t], that is, ids follow the nesting of the three loops;
    and no two entries share a name. *)
Theorem catalog_216_dense_ordered_unique :
  size catalog = 216%nat
  ∧ (∀ i, is_Some (catalog !! i) ↔ 0 ≤ i < 216)
  ∧ (∀ i n, catalog !! i = Some n → EmotionNode.id n = i)
  ∧ (∀ k : nat,
       catalog !! Z.of_nat k = entry (Z.of_nat k) <$> generationOrder !! k)
  ∧ (∀ (c v t : nat) cat vs var lvl,
       categoryVariants !! c = Some (cat, vs) →
       vs !! v = Some var →
       intensityLevels !! t = Some lvl →
       catalog !! Z.of_nat (27 * c + (3 * v + t))
       = Some (makeNode (Z.of_nat (27 * c + (3 * v + t))) cat var lvl))
  ∧ (length categoryVariants = 8%nat
     ∧ Forall (λ cv, length cv.2 = 9%nat) categoryVariants
     ∧ length intensityLevels = 3%nat)
  ∧ (∀ i j n m,
       catalog !! i = Some n → catalog !! j = Some m →
       EmotionNode.name n = EmotionNode.name m → i = j).
Proof.
  split; [apply catalog_size|].
  split; [apply catalog_lookup_is_Some|].
  split.
  { by intros i n (_ & x & _ & ->)%catalog_lookup_Some. }
  assert (∀ k : nat,
    catalog !! Z.of_nat k = entry (Z.of_nat k) <$> generationOrder !! k)
    as Hk.
  { intros k. rewrite catalog_lookup, Nat2Z.id. case_decide as H; [done|].
    rewrite lookup_ge_None_2; [done|]. rewrite generationOrder_length. lia. }
  split; [exact Hk|].
  split.
  { intros c v t cat vs var lvl Hc Hv Ht.
    by rewrite Hk, (generationOrder_index _ _ _ _ _ _ _ Hc Hv Ht). }
  split; [|apply catalog_name_inj].
  split; [reflexivity|]. split; [compute_done|reflexivity].
Qed.

Lemma suffix_of_tier (t : nat) lvl :
  intensityLevels !! t = Some lvl → suffix lvl = tierSuffix t.
Proof.
  destruct t as [|[|[|t]]]; intros [= <-]; vm_compute; reflexivity.
Qed.

(** C6. Every generated entry comes from a category, one of its variants
    and a tier: valence and arousal are the variant's base values times
    the tier, the name is the variant's name with the suffix of the tier
    (none, [_mid], [_low] for 1.0, 0.6, 0.3), and the musical attributes
    are 1.0 + (arousal - 0.5) * 0.5 on the scaled arousal, "major" for a
    positive base valence and "minor" otherwise, and the tier. *)
Theorem catalog_entry_fields i n :
  catalog !! i = Some n →
  ∃ cat vs v (t : nat) lvl,
    (cat, vs) ∈ categoryVariants ∧ v ∈ vs ∧ intensityLevels !! t = Some lvl
    ∧ EmotionNode.category n = cat
    ∧ EmotionNode.intensity n = lvl
    ∧ EmotionNode.valence n = F32.mul (vvalence v) lvl
    ∧ EmotionNode.arousal n = F32.mul (varousal v) lvl
    ∧ EmotionNode.name n = vname v +:+ tierSuffix t
    ∧ EmotionNode.musicalAttributes n
      = MusicalAttributes.mk
          (F32.add (F32.centi 100)
             (F32.mul (F32.sub (EmotionNode.arousal n) (F32.centi 50))
                (F32.centi 50)))
          (if F32.ltb (F32.of_int 0) (vvalence v) then "major" else "minor")
          lvl.
Proof.
  intros (_ & x & Hx & ->)%catalog_lookup_Some.
  apply list_elem_of_lookup_2 in Hx. unfold generationOrder in Hx.
  apply list_elem_of_bind in Hx as ([cat vs] & Hx & Hcv).
  apply list_elem_of_bind in Hx as (v & Hx & Hv).
  apply list_elem_of_bind in Hx as (lvl & Hx & Hl).
  apply list_elem_of_singleton in Hx as ->.
  apply list_elem_of_lookup_1 in Hl as [t Ht].
  exists cat, vs, v, t, lvl. cbn [fst snd] in *.
  repeat (split; [done|]).
  split; [|done]. cbn. by rewrite (suffix_of_tier t lvl).
Qed.

(** The theorem at entry 17, the low tier of "contentment". *)
Lemma catalog_entry_fields_witness :
  catalog !! 17
  = Some (makeNode 17 Joy (V "contentment" 70 30) (F32.centi 30))
  ∧ ∃ v (t : nat),
      EmotionNode.name (makeNode 17 Joy (V "contentment" 70 30) (F32.centi 30))
      = vname v +:+ tierSuffix t.
Proof.
  assert (catalog !! 17
          = Some (makeNode 17 Joy (V "contentment" 70 30) (F32.centi 30)))
    as H by (vm_compute; reflexivity).
  split; [exact H|].
  destruct (catalog_entry_fields 17 _ H)
    as (_ & _ & v & t & _ & _ & _ & _ & _ & _ & _ & _ & Hname & _).
  exists v, t. exact Hname.
Defined.
End Catalog.

(** ** The queries of the catalog *)

(** From here on the catalog is looked at through [catalog_lookup] and by
    evaluation, never by unfolding its loops. *)
#[global] Opaque EmotionEngine.initializeEmotions.

Section Lookup.
Import EmotionEngine Spec.
Context `{!Traversal}.

Lemma elem_of_iterate (m : gmap Z EmotionNode.t) k n :
  (k, n) ∈ iterate m ↔ m !! k = Some n.
Proof. rewrite (iterate_perm m). apply elem_of_map_to_list. Qed.

Lemma NoDup_iterate (m : gmap Z EmotionNode.t) : NoDup (iterate m).
Proof. rewrite (iterate_perm m). apply NoDup_map_to_list. Qed.

Lemma findIn_Some l s n :
  findIn l s = Some n → EmotionNode.name n = s ∧ ∃ k, (k, n) ∈ l.
Proof.
  induction l as [|[k a] l IH]; [done|]. cbn [findIn].
  destruct (String.eqb_spec (EmotionNode.name a) s) as [E|E].
  - intros [= <-]. split; [done|]. exists k. left.
  - intros (? & k' & ?)%IH. split; [done|]. exists k'. by right.
Qed.

Lemma findIn_None l s :
  findIn l s = None ↔ ∀ k n, (k, n) ∈ l → EmotionNode.name n ≠ s.
Proof.
  induction l as [|[k a] l IH]; cbn [findIn].
  { split; [|done]. intros _ k n H'. by apply elem_of_nil in H'. }
  destruct (String.eqb_spec (EmotionNode.name a) s) as [E|E].
  - split; [done|]. intros H'. destruct (H' k a); [left|done].
  - rewrite IH. split.
    + intros H' k' n [[= -> ->]|Hin]%elem_of_cons; [done|by eapply H'].
    + intros H' k' n Hin. eapply H'. by right.
Qed.

(** Where names are unique, the first match is the match, whatever the
    order of the scan. *)
Lemma findIn_unique l k n :
  (∀ x y, x ∈ l → y ∈ l →
          EmotionNode.name x.2 = EmotionNode.name y.2 → x.2 = y.2) →
  (k, n) ∈ l → findIn l (EmotionNode.name n) = Some n.
Proof.
  intros Hu Hin.
  destruct (findIn l (EmotionNode.name n)) as [a|] eqn:E.
  - apply findIn_Some in E as (E & k' & Hin').
    f_equal. by apply (Hu (k', a) (k, n)).
  - rewrite findIn_None in E. by destruct (E k n).
Qed.

Lemma findEmotionByName_Some self s n :
  findEmotionByName self s = Some n →
  EmotionNode.name n = s ∧ ∃ k, nodes_ self !! k = Some n.
Proof.
  intros (? & k & Hin)%findIn_Some. split; [done|].
  exists k. by apply elem_of_iterate.
Qed.

Lemma findEmotionByName_None self s :
  findEmotionByName self s = None
  ↔ ∀ k n, nodes_ self !! k = Some n → EmotionNode.name n ≠ s.
Proof.
  unfold findEmotionByName. rewrite findIn_None.
  split; intros H' k n Hin; apply (H' k n); by apply elem_of_iterate.
Qed.

Lemma findEmotionByName_unique self k n :
  unique_names (nodes_ self) →
  nodes_ self !! k = Some n →
  findEmotionByName self (EmotionNode.name n) = Some n.
Proof.
  intros Hu Hk. apply (findIn_unique _ k); [|by apply elem_of_iterate].
  intros [i a] [j b] Ha%elem_of_iterate Hb%elem_of_iterate E.
  cbn [snd] in *. assert (i = j) as -> by by eapply Hu. congruence.
Qed.

Lemma catalog_unique_names : unique_names catalog.
Proof. exact catalog_name_inj. Qed.

Lemma catalog_keyed_by_id : keyed_by_id catalog.
Proof.
  intros i n (_ & x & _ & ->)%catalog_lookup_Some. reflexivity.
Qed.

Lemma findEmotionByName_catalog k n :
  catalog !! k = Some n →
  findEmotionByName new (EmotionNode.name n) = Some n.
Proof.
  intros Hk.
  exact (findEmotionByName_unique new k n catalog_unique_names Hk).
Qed.

End Lookup.

Section Distance.
Import EmotionEngine Spec.

(** The distance is the same number, bit for bit, in both directions,
    for any two nodes whatever. *)
Lemma calculateDistance_comm (a b : EmotionNode.t) :
  calculateDistance a b = calculateDistance b a.
Proof.
  unfold calculateDistance, F32.mul, F32.sub.
  by rewrite
    (SFmul_self_abs _ _ _ _ (SFsub_abs_sym _ _ (EmotionNode.valence a) _)),
    (SFmul_self_abs _ _ _ _ (SFsub_abs_sym _ _ (EmotionNode.arousal a) _)),
    (SFmul_self_abs _ _ _ _ (SFsub_abs_sym _ _ (EmotionNode.intensity a) _)).
Qed.

Lemma distance_law_pairs_elim l :
  distance_law_pairs l = true →
  (∀ a, a ∈ l → F32.eqb (calculateDistance a a) F32.zero = true)
  ∧ (∀ a b, a ∈ l → b ∈ l →
            distance_law a b = true ∨ distance_law b a = true).
Proof.
  induction l as [|x l IH]; cbn [distance_law_pairs].
  { intros _. split; [intros a|intros a b]; by intros ?%elem_of_nil. }
  intros [[Hd Hx]%andb_prop Hl]%andb_prop.
  destruct (IH Hl) as [IHd IHp]. rewrite forallb_forall in Hx.
  assert (∀ b, b ∈ x :: l → distance_law x b = true) as Hx'.
  { intros b Hb. by apply Hx, list_elem_of_In. }
  split.
  - intros a [->|Ha]%elem_of_cons; [done|by apply IHd].
  - intros a b [->|Ha]%elem_of_cons Hb.
    + left. by apply Hx'.
    + apply elem_of_cons in Hb as [->|Hb].
      * right. apply Hx'. by right.
      * by apply IHp.
Qed.

Lemma catalog_distance_law_pairs : distance_law_pairs entries = true.
Proof. vm_cast_no_check (eq_refl true). Qed.

Lemma elem_of_entries i n : catalog !! i = Some n → n ∈ entries.
Proof.
  intros Hi. apply list_elem_of_fmap. exists (i, n).
  split; [done|]. by apply elem_of_map_to_list.
Qed.

Lemma is_finite_not_nan x : F32.is_finite x = true → x ≠ S754_nan.
Proof. by destruct x. Qed.

Lemma catalog_distance i j a b :
  catalog !! i = Some a → catalog !! j = Some b →
  F32.is_finite (calculateDistance a b) = true
  ∧ F32.eqb (calculateDistance a b) F32.zero = same_point a b.
Proof.
  intros Ha%elem_of_entries Hb%elem_of_entries.
  destruct (distance_law_pairs_elim _ catalog_distance_law_pairs) as [_ Hp].
  destruct (Hp a b Ha Hb) as [H|H]; unfold distance_law in H;
    cbv zeta in H;
    apply andb_prop in H as [[Hf H1%Bool.eqb_prop]%andb_prop H2%Bool.eqb_prop].
  - done.
  - rewrite (calculateDistance_comm a b). by rewrite <- H2.
Qed.

(** C7. [calculateDistance] is the square root of the sum of the squared
    differences of valence, arousal and intensity. On the entries of the
    catalog it is symmetric, it is zero from an entry to itself, and it is
    zero exactly when the two entries are the same point; two entries with
    different ids can be the same point ("cheerfulness" and
    "confidence"). *)
Theorem calculateDistance_euclidean :
  (∀ a b,
     calculateDistance a b
     = let dv := F32.sub (EmotionNode.valence a) (EmotionNode.valence b) in
       let da := F32.sub (EmotionNode.arousal a) (EmotionNode.arousal b) in
       let di :=
         F32.sub (EmotionNode.intensity a) (EmotionNode.intensity b) in
       F32.sqrt (F32.add (F32.add (F32.mul dv dv) (F32.mul da da))
                   (F32.mul di di)))
  ∧ (∀ i j a b,
       catalog !! i = Some a → catalog !! j = Some b →
       F32.eqb (calculateDistance a b) (calculateDistance b a) = true
       ∧ F32.eqb (calculateDistance a a) F32.zero = true
       ∧ (F32.eqb (calculateDistance a b) F32.zero = true
          ↔ same_point a b = true))
  ∧ (∃ i j a b,
       catalog !! i = Some a ∧ catalog !! j = Some b ∧ i ≠ j
       ∧ EmotionNode.id a ≠ EmotionNode.id b
       ∧ F32.eqb (calculateDistance a b) F32.zero = true).
Proof.
  split; [reflexivity|]. split.
  - intros i j a b Ha Hb.
    destruct (catalog_distance i j a b Ha Hb) as [Hf Hz].
    split; [|split].
    + rewrite <- (calculateDistance_comm a b).
      apply SFeqb_refl, is_finite_not_nan, Hf.
    + destruct (distance_law_pairs_elim _ catalog_distance_law_pairs)
        as [Hd _].
      eapply Hd, elem_of_entries, Ha.
    + by rewrite Hz.
  - exists 24, 174.
    eexists (makeNode 24 Joy (V "cheerfulness" 60 50) (F32.centi 100)),
            (makeNode 174 Trust (V "confidence" 60 50) (F32.centi 100)).
    repeat split; try (vm_compute; reflexivity); by vm_compute.
Qed.
End Distance.

Section Nearby.
Import EmotionEngine Spec.
Context `{!Traversal}.

(** The loop of [getNearbyEmotions] keeps, in the order of the scan, the
    entries under another key that are closer than the threshold. *)
Lemma nearby_fold source i t l acc :
  foldl (nearbyStep source i t) acc l
  = acc ++ (filter (λ kn : Z * EmotionNode.t,
                      kn.1 ≠ i
                      ∧ F32.ltb (calculateDistance source kn.2) t = true)
              l).*2.
Proof.
  revert acc. induction l as [|[k n] l IH]; intros acc; cbn [foldl].
  { by rewrite app_nil_r. }
  rewrite IH. unfold nearbyStep. cbn [fst snd].
  rewrite filter_cons. cbn [fst snd].
  case_bool_decide as Hk.
  - rewrite decide_False by (intros [? _]; done). done.
  - destruct (F32.ltb (calculateDistance source n) t) eqn:Hlt.
    + rewrite decide_True by done. rewrite fmap_cons, <- app_assoc. done.
    + rewrite decide_False by (intros [_ ?]; done). done.
Qed.

Lemma getNearbyEmotions_None self i t :
  getEmotion self i = None → getNearbyEmotions self i t = [].
Proof. unfold getNearbyEmotions. by intros ->. Qed.

Lemma getNearbyEmotions_Some self i t source :
  getEmotion self i = Some source →
  getNearbyEmotions self i t
  ≡ₚ (filter (λ kn : Z * EmotionNode.t,
                kn.1 ≠ i
                ∧ F32.ltb (calculateDistance source kn.2) t = true)
        (map_to_list (nodes_ self))).*2.
Proof.
  unfold getNearbyEmotions. intros ->. rewrite nearby_fold, app_nil_l.
  by rewrite (iterate_perm (nodes_ self)).
Qed.

Lemma elem_of_getNearbyEmotions self i t source e :
  getEmotion self i = Some source →
  e ∈ getNearbyEmotions self i t
  ↔ ∃ k, k ≠ i ∧ nodes_ self !! k = Some e
         ∧ F32.ltb (calculateDistance source e) t = true.
Proof.
  intros Hs. rewrite (getNearbyEmotions_Some _ _ _ _ Hs).
  rewrite list_elem_of_fmap. split.
  - intros ([k n] & -> & [[Hk Hlt] Hin%elem_of_map_to_list]%list_elem_of_filter).
    exists k. by cbn [fst snd] in *.
  - intros (k & Hk & Hin & Hlt). exists (k, e). split; [done|].
    apply list_elem_of_filter. split; [done|]. by apply elem_of_map_to_list.
Qed.

Lemma NoDup_getNearbyEmotions self i t :
  keyed_by_id (nodes_ self) → NoDup (getNearbyEmotions self i t).
Proof.
  intros Hid. destruct (getEmotion self i) as [source|] eqn:Hs.
  - rewrite (getNearbyEmotions_Some _ _ _ _ Hs).
    apply NoDup_fmap_2_strong.
    + intros [k a] [k' b]
        [_ Ha%elem_of_map_to_list]%list_elem_of_filter
        [_ Hb%elem_of_map_to_list]%list_elem_of_filter E.
      cbn [snd] in E. subst b.
      by rewrite <- (Hid _ _ Ha), <- (Hid _ _ Hb).
    + apply NoDup_filter, NoDup_map_to_list.
  - rewrite getNearbyEmotions_None by done. constructor.
Qed.

(** C8. On a constructed engine, for every id and every threshold:
    [getNearbyEmotions] returns nothing for an id that is not in the
    catalog; for an id that is, it returns, each once, exactly the entries
    under another id whose distance to the source is strictly below the
    threshold, so never the source itself. *)
Theorem getNearbyEmotions_exact i t :
  (catalog !! i = None → getNearbyEmotions new i t = [])
  ∧ (∀ source, catalog !! i = Some source →
       (∀ e, e ∈ getNearbyEmotions new i t
             ↔ ∃ k, k ≠ i ∧ catalog !! k = Some e
                    ∧ F32.ltb (calculateDistance source e) t = true)
       ∧ (∀ e, e ∈ getNearbyEmotions new i t →
               EmotionNode.id e ≠ i ∧ e ≠ source
               ∧ F32.ltb (calculateDistance source e) t = true)
       ∧ NoDup (getNearbyEmotions new i t)).
Proof.
  unfold catalog. split; [apply getNearbyEmotions_None|].
  intros source Hs. split; [|split].
  - intros e. by apply elem_of_getNearbyEmotions.
  - intros e (k & Hk & He & Hlt)%(elem_of_getNearbyEmotions _ _ _ _ _ Hs).
    pose proof (catalog_keyed_by_id _ _ He) as Hke.
    pose proof (catalog_keyed_by_id _ _ Hs) as Hks.
    split; [congruence|]. split; [congruence|done].
  - apply NoDup_getNearbyEmotions, catalog_keyed_by_id.
Qed.
End Nearby.

(** ** The intent pipeline *)

Section Strings.
Import IntentProcessor Spec.

Lemma starts_with_spec s needle :
  starts_with s needle = true ↔ ∃ post, s = needle +:+ post.
Proof.
  revert s. induction needle as [|a needle IH]; intros s.
  { split; [|by destruct s]. intros _. by exists s. }
  destruct s as [|b s]; cbn [starts_with].
  { split; [done|]. by intros [post ?]. }
  rewrite andb_true_iff, IH. split.
  - intros [->%Ascii.eqb_eq [post ->]]. by exists post.
  - intros [post [= -> ->]]. split; [apply Ascii.eqb_refl|by exists post].
Qed.

Lemma find_from_is_Some s needle pos :
  is_Some (find_from s needle pos) ↔ contains s needle.
Proof.
  revert pos. induction s as [|c s IH]; intros pos; cbn [find_from];
    destruct (starts_with _ needle) eqn:Hp.
  - split; [|done]. intros _.
    apply starts_with_spec in Hp as [post ->]. by exists "", post.
  - split; [by intros [? ?]|]. intros (pre & post & E).
    destruct pre; [|done]. cbn in E.
    assert (starts_with "" needle = true) as Hp'; [|congruence].
    apply starts_with_spec. by exists post.
  - split; [|done]. intros _.
    apply starts_with_spec in Hp as [post ->]. by exists "", post.
  - rewrite IH. split.
    + intros (pre & post & ->). by exists (String c pre), post.
    + intros ([|c' pre] & post & E).
      * assert (starts_with (String c s) needle = true) as Hp'; [|congruence].
        apply starts_with_spec. by exists post.
      * injection E as -> ->. by exists pre, post.
Qed.

(** [s.find(needle) != npos] says that [needle] occurs in [s]. *)
Lemma found_spec s needle : found s needle = true ↔ contains s needle.
Proof.
  unfold found, find. rewrite <- (find_from_is_Some s needle 0).
  destruct (find_from s needle 0); split; (done || by intros [? ?] || eauto).
Qed.

Lemma found_or s n1 n2 :
  found s n1 || found s n2 = true ↔ contains s n1 ∨ contains s n2.
Proof. by rewrite orb_true_iff, !found_spec. Qed.

Lemma found_nor s n1 n2 :
  ¬ (contains s n1 ∨ contains s n2) → found s n1 || found s n2 = false.
Proof. rewrite <- found_or. by destruct (_ || _). Qed.
End Strings.

Section LowerCase.
Import IntentProcessor Spec.

(** [std::tolower] is lower case, character by character. *)
Lemma tolower_lower_letter c : tolower c = lower_letter c.
Proof. destruct c as [[] [] [] [] [] [] [] []]; reflexivity. Qed.

(** The [std::transform] of [processWound] lower-cases the description. *)
Lemma transform_tolower_lowercase s : transform tolower s = lowercase s.
Proof.
  induction s as [|c s IH]; [reflexivity|].
  cbn [transform lowercase]. by rewrite IH, tolower_lower_letter.
Qed.
End LowerCase.

Section Classification.
Import IntentProcessor Spec.
Context `{!EmotionEngine.Traversal}.

Lemma find_base k n s :
  catalog !! k = Some n → EmotionNode.name n = s →
  EmotionEngine.findEmotionByName EmotionEngine.new s = Some n.
Proof. intros Hk <-. by apply (findEmotionByName_catalog k). Qed.

Lemma find_grief :
  EmotionEngine.findEmotionByName EmotionEngine.new "grief" = Some griefNode.
Proof. apply (find_base 27); vm_compute; reflexivity. Qed.

Lemma find_rage :
  EmotionEngine.findEmotionByName EmotionEngine.new "rage" = Some rageNode.
Proof. apply (find_base 54); vm_compute; reflexivity. Qed.

Lemma find_anxiety :
  EmotionEngine.findEmotionByName EmotionEngine.new "anxiety"
  = Some anxietyNode.
Proof. apply (find_base 93); vm_compute; reflexivity. Qed.

Lemma find_melancholy :
  EmotionEngine.findEmotionByName EmotionEngine.new "melancholy"
  = Some melancholyNode.
Proof. apply (find_base 36); vm_compute; reflexivity. Qed.

(** What [processWound] answers and what it leaves behind, on any
    object. *)
Lemma processWound_unfold wound self :
  processWound wound self
  = (EmotionEngine.findEmotionByName (engine_ self)
       (let desc := transform tolower (Wound.description wound) in
        if found desc "loss" || found desc "grief" then "grief"
        else if found desc "anger" || found desc "rage" then "rage"
        else if found desc "fear" || found desc "anxiety" then "anxiety"
        else "melancholy"),
     mk (engine_ self) (woundHistory_ self ++ [wound]) (ruleBreaks_ self)).
Proof.
  unfold processWound. cbv zeta.
  repeat destruct (_ || _); reflexivity.
Qed.

(** C2. On a constructed pipeline, for every wound: the description is
    put in lower case (A to Z become a to z, nothing else changes), and
    then an occurrence of "loss" or "grief" gives the entry named "grief";
    failing that, one of "anger" or "rage" gives "rage"; failing that, one
    of "fear" or "anxiety" gives "anxiety"; failing all, the answer is
    "melancholy". The four descriptions of the specification are
    classified as it says, and so are they when written in capitals. *)
Theorem processWound_priority wound history log :
  let self := mk EmotionEngine.new history log in
  let desc := lowercase (Wound.description wound) in
  let answer := (processWound wound self).1 in
  let first := contains desc "loss" ∨ contains desc "grief" in
  let second := contains desc "anger" ∨ contains desc "rage" in
  let third := contains desc "fear" ∨ contains desc "anxiety" in
  (first → answer = Some griefNode)
  ∧ (¬ first → second → answer = Some rageNode)
  ∧ (¬ first → ¬ second → third → answer = Some anxietyNode)
  ∧ (¬ first → ¬ second → ¬ third → answer = Some melancholyNode)
  ∧ (EmotionNode.name griefNode = "grief"
     ∧ EmotionNode.name rageNode = "rage"
     ∧ EmotionNode.name anxietyNode = "anxiety"
     ∧ EmotionNode.name melancholyNode = "melancholy")
  ∧ (∀ intensity source,
       (processWound
          (Wound.mk "I feel overwhelming loss" intensity source) self).1
       = Some griefNode
       ∧ (processWound (Wound.mk "pure rage inside" intensity source) self).1
         = Some rageNode
       ∧ (processWound (Wound.mk "constant anxiety" intensity source) self).1
         = Some anxietyNode
       ∧ (processWound (Wound.mk "a quiet afternoon" intensity source) self).1
         = Some melancholyNode)
  ∧ (∀ intensity source,
       (processWound
          (Wound.mk "I Feel Overwhelming LOSS" intensity source) self).1
       = Some griefNode
       ∧ (processWound (Wound.mk "PURE RAGE INSIDE" intensity source) self).1
         = Some rageNode
       ∧ (processWound (Wound.mk "Constant AnXiEtY" intensity source) self).1
         = Some anxietyNode
       ∧ (processWound (Wound.mk "A QUIET AFTERNOON" intensity source) self).1
         = Some melancholyNode)
  ∧ (lowercase "I Feel Overwhelming LOSS, Rage & Fear (2x)!"
     = "i feel overwhelming loss, rage & fear (2x)!").
Proof.
  intros self desc answer first second third.
  unfold answer. rewrite processWound_unfold. cbn [fst engine_ self].
  cbv zeta. rewrite transform_tolower_lowercase. fold desc.
  split; [|split; [|split; [|split; [|split; [|split; [|split]]]]]].
  - intros H1%found_or. rewrite H1. apply find_grief.
  - intros H1%found_nor H2%found_or. rewrite H1, H2. apply find_rage.
  - intros H1%found_nor H2%found_nor H3%found_or. rewrite H1, H2, H3.
    apply find_anxiety.
  - intros H1%found_nor H2%found_nor H3%found_nor. rewrite H1, H2, H3.
    apply find_melancholy.
  - repeat split; vm_compute; reflexivity.
  - intros intensity source. rewrite !processWound_unfold.
    cbn [fst engine_ self Wound.description].
    repeat split;
      [ change (EmotionEngine.findEmotionByName EmotionEngine.new "grief"
                = Some griefNode); apply find_grief
      | change (EmotionEngine.findEmotionByName EmotionEngine.new "rage"
                = Some rageNode); apply find_rage
      | change (EmotionEngine.findEmotionByName EmotionEngine.new "anxiety"
                = Some anxietyNode); apply find_anxiety
      | change (EmotionEngine.findEmotionByName EmotionEngine.new "melancholy"
                = Some melancholyNode); apply find_melancholy ].
  - intros intensity source. rewrite !processWound_unfold.
    cbn [fst engine_ self Wound.description].
    repeat split;
      [ change (EmotionEngine.findEmotionByName EmotionEngine.new "grief"
                = Some griefNode); apply find_grief
      | change (EmotionEngine.findEmotionByName EmotionEngine.new "rage"
                = Some rageNode); apply find_rage
      | change (EmotionEngine.findEmotionByName EmotionEngine.new "anxiety"
                = Some anxietyNode); apply find_anxiety
      | change (EmotionEngine.findEmotionByName EmotionEngine.new "melancholy"
                = Some melancholyNode); apply find_melancholy ].
  - reflexivity.
Qed.
End Classification.

Section RuleBreaks.
Import IntentProcessor Spec.

Lemma emotionToRuleBreaks_unfold emotion self :
  emotionToRuleBreaks emotion self
  = (let breaks :=
       push_if (F32.gtb (EmotionNode.arousal emotion) (F32.centi 70))
         (rhythmBreak emotion)
         (push_if
            (F32.ltb (EmotionNode.valence emotion) (F32.opp (F32.centi 50)))
            (harmonyBreak emotion)
            (push_if
               (F32.gtb (EmotionNode.intensity emotion) (F32.centi 80))
               (dynamicsBreak emotion) [])) in
     (breaks,
      mk (engine_ self) (woundHistory_ self) (ruleBreaks_ self ++ breaks))).
Proof. reflexivity. Qed.

(** C3. For every node, on any object: [emotionToRuleBreaks] checks three
    rules in a fixed order, each on its own, and returns between zero and
    three rule breaks: "dynamics" with the intensity as severity when the
    intensity is above 0.8, then "harmony" with the absolute valence when
    the valence is below -0.5, then "rhythm" with the arousal when the
    arousal is above 0.7; what it returns it also appends to the log of
    the object, and nothing else of the object changes. The base tier of
    "terror" gets all three, the low tier of "contentment" none. *)
Theorem emotionToRuleBreaks_rules emotion self :
  let result := emotionToRuleBreaks emotion self in
  let dynamics := F32.gtb (EmotionNode.intensity emotion) (F32.centi 80) in
  let harmony :=
    F32.ltb (EmotionNode.valence emotion) (F32.opp (F32.centi 50)) in
  let rhythm := F32.gtb (EmotionNode.arousal emotion) (F32.centi 70) in
  (RuleBreak.ruleType <$> result.1
   = (if dynamics then ["dynamics"] else [])
     ++ (if harmony then ["harmony"] else [])
     ++ (if rhythm then ["rhythm"] else []))
  ∧ (RuleBreak.severity <$> result.1
     = (if dynamics then [EmotionNode.intensity emotion] else [])
       ++ (if harmony then [F32.abs (EmotionNode.valence emotion)] else [])
       ++ (if rhythm then [EmotionNode.arousal emotion] else []))
  ∧ (length result.1 ≤ 3)%nat
  ∧ ruleBreaks_ result.2 = ruleBreaks_ self ++ result.1
  ∧ woundHistory_ result.2 = woundHistory_ self
  ∧ engine_ result.2 = engine_ self
  ∧ (catalog !! 81 = Some terrorNode
     ∧ EmotionNode.name terrorNode = "terror"
     ∧ RuleBreak.ruleType <$> (emotionToRuleBreaks terrorNode self).1
       = ["dynamics"; "harmony"; "rhythm"])
  ∧ (catalog !! 17 = Some contentmentLowNode
     ∧ EmotionNode.name contentmentLowNode = "contentment_low"
     ∧ (emotionToRuleBreaks contentmentLowNode self).1 = []).
Proof.
  intros result dynamics harmony rhythm. unfold result.
  rewrite !emotionToRuleBreaks_unfold. cbv zeta. cbn [fst snd].
  fold dynamics harmony rhythm.
  split; [by destruct dynamics, harmony, rhythm|].
  split; [by destruct dynamics, harmony, rhythm|].
  split; [destruct dynamics, harmony, rhythm; cbn; lia|].
  split; [done|]. split; [done|]. split; [done|].
  split; (split; [vm_compute; reflexivity|]);
    (split; [vm_compute; reflexivity|]).
  - replace (F32.gtb (EmotionNode.intensity terrorNode) (F32.centi 80))
      with true by (vm_compute; reflexivity).
    replace (F32.ltb (EmotionNode.valence terrorNode) (F32.opp (F32.centi 50)))
      with true by (vm_compute; reflexivity).
    replace (F32.gtb (EmotionNode.arousal terrorNode) (F32.centi 70))
      with true by (vm_compute; reflexivity).
    reflexivity.
  - replace (F32.gtb (EmotionNode.intensity contentmentLowNode) (F32.centi 80))
      with false by (vm_compute; reflexivity).
    replace (F32.ltb (EmotionNode.valence contentmentLowNode)
               (F32.opp (F32.centi 50)))
      with false by (vm_compute; reflexivity).
    replace (F32.gtb (EmotionNode.arousal contentmentLowNode) (F32.centi 70))
      with false by (vm_compute; reflexivity).
    reflexivity.
Qed.
End RuleBreaks.

Section Parameters.
Import IntentProcessor Spec.

(** Writing every entry of a map into another is a union in which the
    written entries win. *)
Lemma overlay_union (src params : gmap string any) :
  overlay src params = src ∪ params.
Proof.
  unfold overlay. induction src as [|k v src Hk IH] using map_ind.
  { by rewrite map_fold_empty, (left_id_L ∅ (∪)). }
  rewrite map_fold_insert_L; [|intros; by apply insert_insert_ne|done].
  by rewrite IH, insert_union_l.
Qed.

Lemma compileMusicalParams_nil emotion :
  compileMusicalParams emotion [] = baseParams emotion.
Proof. reflexivity. Qed.

Lemma compileMusicalParams_snoc emotion rbs rb :
  compileMusicalParams emotion (rbs ++ [rb])
  = RuleBreak.musicalImpact rb ∪ compileMusicalParams emotion rbs.
Proof.
  unfold compileMusicalParams. cbv zeta.
  by rewrite foldl_app, <- overlay_union.
Qed.

Lemma baseParams_subseteq emotion rbs :
  dom (baseParams emotion) ⊆ dom (compileMusicalParams emotion rbs).
Proof.
  induction rbs as [|rb rbs IH] using rev_ind.
  - by rewrite compileMusicalParams_nil.
  - rewrite compileMusicalParams_snoc, dom_union_L.
    etrans; [exact IH|apply union_subseteq_r].
Qed.

Lemma baseParams_size emotion : size (baseParams emotion) = 3%nat.
Proof. reflexivity. Qed.
End Parameters.

Section Compilation.
Import IntentProcessor Spec.

(** C4. For every node and every sequence of rule breaks:
    [compileMusicalParams] starts from exactly three entries,
    [tempo_modifier], [mode] and [dynamics], taken from the musical
    attributes of the node, and then writes the entries of each rule
    break over the mapping, in the order of the sequence, a later write
    replacing an earlier one; of two rule breaks with a key in common the
    value of the second is the one in the result. *)
Theorem compileMusicalParams_overlay emotion :
  let attrs := EmotionNode.musicalAttributes emotion in
  (compileMusicalParams emotion [] = baseParams emotion
   ∧ size (baseParams emotion) = 3%nat
   ∧ baseParams emotion !! "tempo_modifier"
     = Some (AnyFloat (MusicalAttributes.tempoModifier attrs))
   ∧ baseParams emotion !! "mode"
     = Some (AnyString (MusicalAttributes.mode attrs))
   ∧ baseParams emotion !! "dynamics"
     = Some (AnyFloat (MusicalAttributes.dynamics attrs)))
  ∧ (∀ rbs rb,
       compileMusicalParams emotion (rbs ++ [rb])
       = RuleBreak.musicalImpact rb ∪ compileMusicalParams emotion rbs)
  ∧ (∀ rbs rb key,
       compileMusicalParams emotion (rbs ++ [rb]) !! key
       = match RuleBreak.musicalImpact rb !! key with
         | Some value => Some value
         | None => compileMusicalParams emotion rbs !! key
         end)
  ∧ (∀ rb1 rb2 key value,
       RuleBreak.musicalImpact rb2 !! key = Some value →
       compileMusicalParams emotion [rb1; rb2] !! key = Some value).
Proof.
  intros attrs.
  split; [repeat split|]. split; [|split].
  - apply compileMusicalParams_snoc.
  - intros rbs rb key. rewrite compileMusicalParams_snoc, lookup_union.
    by destruct (RuleBreak.musicalImpact rb !! key),
      (compileMusicalParams emotion rbs !! key).
  - intros rb1 rb2 key value Hk.
    change [rb1; rb2] with ([rb1] ++ [rb2]).
    rewrite (compileMusicalParams_snoc emotion [rb1] rb2).
    by apply lookup_union_Some_l.
Qed.

(** The theorem at a collision: both rule breaks write [mode]. *)
Lemma compileMusicalParams_overlay_witness :
  compileMusicalParams Spec.terrorNode
    [ RuleBreak.mk "harmony" F32.one "" {[ "mode" := AnyString "first" ]};
      RuleBreak.mk "rhythm" F32.one "" {[ "mode" := AnyString "second" ]} ]
    !! "mode"
  = Some (AnyString "second").
Proof.
  destruct (compileMusicalParams_overlay Spec.terrorNode) as (_ & _ & _ & H).
  apply H. reflexivity.
Defined.
End Compilation.

Section Intent.
Import IntentProcessor Spec.
Context `{!EmotionEngine.Traversal}.

(** [processIntent], call by call. *)
Lemma processIntent_unfold wound self :
  processIntent wound self
  = let found := processWound wound self in
    match found.1 with
    | Some e =>
        let derived := emotionToRuleBreaks e found.2 in
        (IntentResult.mk wound (Some e) derived.1
           (compileMusicalParams e derived.1),
         derived.2)
    | None => (IntentResult.mk wound None [] ∅, found.2)
    end.
Proof.
  unfold processIntent. cbv zeta.
  change (processIntent wound self) with (processIntent wound self).
  unfold mbind, M_bind, mret, M_ret.
  destruct (processWound wound self) as [[e|] self']; reflexivity.
Qed.

Lemma processWound_state wound self :
  (processWound wound self).2
  = mk (engine_ self) (woundHistory_ self ++ [wound]) (ruleBreaks_ self).
Proof. by rewrite processWound_unfold. Qed.

Lemma processWound_engine wound s1 s2 :
  engine_ s1 = engine_ s2 →
  (processWound wound s1).1 = (processWound wound s2).1.
Proof. intros E. rewrite !processWound_unfold. cbn [fst]. by rewrite E. Qed.

Lemma processWound_new_is_Some wound history log :
  is_Some (processWound wound (mk EmotionEngine.new history log)).1.
Proof.
  rewrite processWound_unfold. cbn [fst engine_]. cbv zeta.
  repeat (destruct (_ || _));
    [rewrite find_grief|rewrite find_rage|rewrite find_anxiety
    |rewrite find_melancholy]; done.
Qed.

Lemma compileMusicalParams_nonempty emotion rbs :
  compileMusicalParams emotion rbs ≠ ∅.
Proof.
  intros E. pose proof (baseParams_subseteq emotion rbs) as Hs.
  rewrite E, dom_empty_L in Hs.
  assert ("mode" ∈ dom (baseParams emotion)) as Hin.
  { apply elem_of_dom. by eexists. }
  by apply Hs in Hin.
Qed.

Lemma processIntent_emotion wound self :
  IntentResult.emotion (processIntent wound self).1
  = (processWound wound self).1.
Proof.
  rewrite processIntent_unfold. cbv zeta.
  by destruct (processWound wound self).1.
Qed.

Lemma processIntent_degraded wound self :
  (processWound wound self).1 = None →
  (processIntent wound self).1 = IntentResult.mk wound None [] ∅.
Proof. intros E. rewrite processIntent_unfold. cbv zeta. by rewrite E. Qed.

(** C10. The mapping [compileMusicalParams] returns always has the keys
    [tempo_modifier], [mode] and [dynamics], hence at least three
    entries; so the mapping in the result of [processIntent] is empty
    exactly when the lookup of the emotion failed. *)
Theorem musicalParams_empty_iff_lookup_failed :
  (∀ emotion rbs,
     is_Some (compileMusicalParams emotion rbs !! "tempo_modifier")
     ∧ is_Some (compileMusicalParams emotion rbs !! "mode")
     ∧ is_Some (compileMusicalParams emotion rbs !! "dynamics")
     ∧ (3 ≤ size (compileMusicalParams emotion rbs))%nat)
  ∧ (∀ wound self,
       IntentResult.musicalParams (processIntent wound self).1 = ∅
       ↔ (processWound wound self).1 = None)
  ∧ (∀ wound self,
       IntentResult.emotion (processIntent wound self).1
       = (processWound wound self).1).
Proof.
  split; [|split].
  - intros emotion rbs.
    pose proof (baseParams_subseteq emotion rbs) as Hs.
    assert (∀ key, is_Some (baseParams emotion !! key) →
                   is_Some (compileMusicalParams emotion rbs !! key)) as Hk.
    { intros key Hin%elem_of_dom. by apply elem_of_dom, Hs. }
    repeat split; try (apply Hk; by eexists).
    rewrite <- (baseParams_size emotion), <- !size_dom.
    by apply subseteq_size.
  - intros wound self. rewrite processIntent_unfold. cbv zeta.
    destruct (processWound wound self).1 as [e|]; cbn; [|done].
    split; [|done]. by intros ?%compileMusicalParams_nonempty.
  - apply processIntent_emotion.
Qed.

(** C5. On a constructed pipeline [processIntent] answers every wound
    with an emotion, the four names of the classification being base-tier
    entries of the catalog. On any pipeline, when the lookup of the
    emotion fails, the result carries no emotion, no rule breaks and an
    empty mapping (as on an engine without entries). Absence is an answer
    everywhere: an id outside the catalog, a name no entry has and the
    neighbourhood of an unknown id give "not found" or nothing. *)
Theorem processIntent_emotion_or_degraded :
  (∀ wound history log,
     is_Some (IntentResult.emotion
                (processIntent wound (mk EmotionEngine.new history log)).1))
  ∧ (EmotionEngine.findEmotionByName EmotionEngine.new "grief"
     = Some griefNode
     ∧ EmotionEngine.findEmotionByName EmotionEngine.new "rage"
       = Some rageNode
     ∧ EmotionEngine.findEmotionByName EmotionEngine.new "anxiety"
       = Some anxietyNode
     ∧ EmotionEngine.findEmotionByName EmotionEngine.new "melancholy"
       = Some melancholyNode
     ∧ Forall (λ n, EmotionNode.intensity n = F32.centi 100
                    ∧ EmotionEngine.suffix (EmotionNode.intensity n) = "")
         [griefNode; rageNode; anxietyNode; melancholyNode])
  ∧ (∀ wound self,
       (processWound wound self).1 = None →
       (processIntent wound self).1 = IntentResult.mk wound None [] ∅)
  ∧ (∀ wound history log,
       (processIntent wound (mk (EmotionEngine.mk ∅) history log)).1
       = IntentResult.mk wound None [] ∅)
  ∧ (∀ i, ¬ (0 ≤ i < 216) →
          EmotionEngine.getEmotion EmotionEngine.new i = None
          ∧ ∀ t, EmotionEngine.getNearbyEmotions EmotionEngine.new i t = [])
  ∧ (∀ self s,
       (∀ k n, EmotionEngine.nodes_ self !! k = Some n →
               EmotionNode.name n ≠ s) →
       EmotionEngine.findEmotionByName self s = None).
Proof.
  split; [|split; [|split; [|split; [|split]]]].
  - intros wound history log. rewrite processIntent_emotion.
    apply processWound_new_is_Some.
  - split; [apply find_grief|]. split; [apply find_rage|].
    split; [apply find_anxiety|]. split; [apply find_melancholy|].
    repeat constructor; vm_compute; reflexivity.
  - apply processIntent_degraded.
  - intros wound history log. apply processIntent_degraded.
    rewrite processWound_unfold. cbn [fst engine_].
    apply findEmotionByName_None. intros k n. cbn [EmotionEngine.nodes_].
    by rewrite lookup_empty.
  - intros i Hi.
    assert (EmotionEngine.getEmotion EmotionEngine.new i = None) as Hn.
    { unfold EmotionEngine.getEmotion. fold catalog.
      rewrite catalog_lookup. by case_decide. }
    split; [exact Hn|]. intros t. by apply getNearbyEmotions_None.
  - intros self s. apply findEmotionByName_None.
Qed.

(** The answer of [processIntent] depends on the engine and the wound
    only. *)
Lemma processIntent_engine wound s1 s2 :
  engine_ s1 = engine_ s2 →
  (processIntent wound s1).1 = (processIntent wound s2).1.
Proof.
  intros E. rewrite !processIntent_unfold. cbv zeta.
  rewrite (processWound_engine wound s1 s2 E).
  destruct (processWound wound s2).1; [|done].
  by rewrite !emotionToRuleBreaks_unfold.
Qed.

Lemma processIntent_state wound self :
  engine_ (processIntent wound self).2 = engine_ self
  ∧ woundHistory_ (processIntent wound self).2
    = woundHistory_ self ++ [wound]
  ∧ ruleBreaks_ (processIntent wound self).2
    = ruleBreaks_ self
      ++ IntentResult.ruleBreaks (processIntent wound self).1.
Proof.
  rewrite processIntent_unfold. cbv zeta.
  rewrite processWound_unfold. cbn [fst snd].
  destruct (EmotionEngine.findEmotionByName _ _).
  - rewrite emotionToRuleBreaks_unfold. cbv zeta. by cbn.
  - cbn. by rewrite app_nil_r.
Qed.

Lemma call_state c self :
  engine_ (call c self) = engine_ self
  ∧ woundHistory_ self `prefix_of` woundHistory_ (call c self)
  ∧ ruleBreaks_ self `prefix_of` ruleBreaks_ (call c self).
Proof.
  destruct c as [wound|emotion|wound]; cbn [call].
  - rewrite processWound_state. cbn. split; [done|].
    split; [by apply prefix_app_r|done].
  - rewrite emotionToRuleBreaks_unfold. cbv zeta. cbn. split; [done|].
    split; [done|by apply prefix_app_r].
  - destruct (processIntent_state wound self) as (-> & -> & ->).
    split; [done|]. split; by apply prefix_app_r.
Qed.

Lemma run_state calls self :
  engine_ (run calls self) = engine_ self
  ∧ woundHistory_ self `prefix_of` woundHistory_ (run calls self)
  ∧ ruleBreaks_ self `prefix_of` ruleBreaks_ (run calls self).
Proof.
  unfold run. revert self.
  induction calls as [|c calls IH]; intros self; cbn [foldl]; [done|].
  destruct (IH (call c self)) as (-> & Hw & Hr).
  destruct (call_state c self) as (-> & Hw' & Hr').
  split; [done|]. split; by etrans.
Qed.

(** C9. On one pipeline, two calls of [processIntent] with the same wound
    return the same emotion, rule breaks and mapping, whatever calls come
    between them and before them; a call changes the wound history and
    the rule-break log only: both grow at the end, the history by the
    wound and the log by the rule breaks returned, and no result depends
    on them. *)
Theorem processIntent_idempotent wound self :
  (∀ before between,
     let first := processIntent wound (run before self) in
     let second := processIntent wound (run between first.2) in
     second.1 = first.1 ∧ first.1 = (processIntent wound self).1)
  ∧ (∀ other, engine_ other = engine_ self →
              (processIntent wound other).1 = (processIntent wound self).1)
  ∧ (engine_ (processIntent wound self).2 = engine_ self
     ∧ woundHistory_ (processIntent wound self).2
       = woundHistory_ self ++ [wound]
     ∧ ruleBreaks_ (processIntent wound self).2
       = ruleBreaks_ self
         ++ IntentResult.ruleBreaks (processIntent wound self).1)
  ∧ (∀ calls,
       engine_ (run calls self) = engine_ self
       ∧ woundHistory_ self `prefix_of` woundHistory_ (run calls self)
       ∧ ruleBreaks_ self `prefix_of` ruleBreaks_ (run calls self)).
Proof.
  split; [|split; [|split]].
  - intros before between first second. unfold second, first. split.
    + apply processIntent_engine.
      destruct (run_state between (processIntent wound (run before self)).2)
        as (-> & _).
      by destruct (processIntent_state wound (run before self)) as (-> & _).
    + apply processIntent_engine. by destruct (run_state before self) as (-> & _).
  - intros other E. by apply processIntent_engine.
  - apply processIntent_state.
  - intros calls. apply run_state.
Qed.
End Intent.

(** The degraded case, on an engine whose only entry has another name. *)
Lemma processIntent_emotion_or_degraded_witness :
  (@IntentProcessor.processIntent EmotionEngine.map_order
     (Wound.mk "a quiet afternoon" F32.one "journal")
     (IntentProcessor.mk (EmotionEngine.mk {[ 0 := Spec.griefNode ]}) [] [])).1
  = IntentResult.mk (Wound.mk "a quiet afternoon" F32.one "journal")
      None [] ∅.
Proof.
  destruct (@processIntent_emotion_or_degraded EmotionEngine.map_order)
    as (_ & _ & H & _).
  apply H. vm_compute. reflexivity.
Defined.


(** * Further properties *)

(** ** The order of the floats *)

Section FloatOrder.
Import Laws.

Lemma SFcompare_rank x y :
  is_nan x = false → is_nan y = false →
  SFcompare x y
  = Some (if decide (lex_lt (rank x) (rank y)) then Lt
          else if decide (rank x = rank y) then Eq else Gt).
Proof.
  destruct x as [sx|sx| |sx mx ex], y as [sy|sy| |sy my ey];
    intros Hx Hy; try discriminate; cbn [SFcompare rank];
    try (destruct sx); try (destruct sy); unfold lex_lt; cbn [fst snd];
    try (f_equal; repeat case_decide; (done || lia)).
  - destruct (Z.compare_spec ex ey) as [->| |].
    + rewrite Pos.compare_cont_spec. cbn [Pos.switch_Eq].
      destruct (Pos.compare_spec mx my) as [->| |]; cbn [CompOpp];
        f_equal; repeat case_decide; simplify_eq; (done || lia).
    + f_equal; repeat case_decide; simplify_eq; (done || lia).
    + f_equal; repeat case_decide; simplify_eq; (done || lia).
  - destruct (Z.compare_spec ex ey) as [->| |].
    + rewrite Pos.compare_cont_spec. cbn [Pos.switch_Eq].
      destruct (Pos.compare_spec mx my) as [->| |];
        f_equal; repeat case_decide; simplify_eq; (done || lia).
    + f_equal; repeat case_decide; simplify_eq; (done || lia).
    + f_equal; repeat case_decide; simplify_eq; (done || lia).
Qed.

Lemma SFltb_rank x y :
  SFltb x y = true
  ↔ is_nan x = false ∧ is_nan y = false ∧ lex_lt (rank x) (rank y).
Proof.
  destruct (is_nan x) eqn:Hx; [destruct x; try done; by split; [|intros (?&?&?)]|].
  destruct (is_nan y) eqn:Hy.
  { destruct y; try done. rewrite SFltb_nan_r. by split; [|intros (?&?&?)]. }
  unfold SFltb. rewrite SFcompare_rank by done.
  repeat case_decide; intuition congruence.
Qed.

Lemma SFleb_rank x y :
  SFleb x y = true
  ↔ is_nan x = false ∧ is_nan y = false
    ∧ (lex_lt (rank x) (rank y) ∨ rank x = rank y).
Proof.
  destruct (is_nan x) eqn:Hx; [destruct x; try done; by split; [|intros (?&?&?)]|].
  destruct (is_nan y) eqn:Hy.
  { destruct y; try done. destruct x; by split; [|intros (?&?&?)]. }
  unfold SFleb. rewrite SFcompare_rank by done.
  repeat case_decide; intuition congruence.
Qed.

(** [x < y] and [y <= z] give [x < z]. *)
Lemma SFltb_leb_trans x y z :
  SFltb x y = true → SFleb y z = true → SFltb x z = true.
Proof.
  rewrite !SFltb_rank, SFleb_rank.
  intros (Hx & Hy & Hxy) (_ & Hz & Hyz). split; [done|]. split; [done|].
  destruct (rank x) as [[a b] c], (rank y) as [[a' b'] c'],
    (rank z) as [[a'' b''] c''].
  unfold lex_lt in *. cbn [fst snd] in *.
  destruct Hyz as [Hyz|Hyz]; [lia|]. by simplify_eq.
Qed.

Lemma binary_round_aux_not_negative prec emax m e l :
  not_negative (binary_round_aux prec emax false m e l) = true.
Proof.
  unfold binary_round_aux.
  destruct (shr_fexp prec emax m e l) as [mrs' e'].
  destruct (shr_fexp prec emax _ e' loc_Exact) as [mrs'' e''].
  destruct (shr_m mrs''); [done| |done].
  by destruct (e'' <=? emax - prec).
Qed.

(** A square root is never below zero. *)
Lemma SFsqrt_not_negative prec emax x :
  not_negative (SFsqrt prec emax x) = true.
Proof.
  destruct x as [s|[|]| |[|] m e]; try done. cbn [SFsqrt].
  destruct (SFsqrt_core_binary prec emax (Z.pos m) e) as [[mz ez] lz].
  apply binary_round_aux_not_negative.
Qed.

(** Nothing that is not below zero is below a threshold that is zero or
    less, or that is not a number. *)
Lemma SFltb_not_negative d t :
  not_negative d = true →
  SFleb t (S754_zero false) = true ∨ is_nan t = true →
  SFltb d t = false.
Proof.
  intros Hd [Ht|Ht].
  - destruct d as [|[|]| |[|]], t as [|[|]| |[|]]; done.
  - destruct t; try done. apply SFltb_nan_r.
Qed.
End FloatOrder.

(** ** Distances and neighbourhoods, on any engine *)

Section DistanceEverywhere.
Import EmotionEngine Spec Laws.

(** [calculateDistance] gives the same result in both directions, for any
    two nodes whatever: where one direction is not a number the other is
    not a number either (of a NaN neither sign nor payload is modelled),
    and otherwise the two results are one number, of the same sign,
    exponent and significand, so that [==] holds between them. *)
Theorem calculateDistance_symmetric_everywhere (a b : EmotionNode.t) :
  is_nan (calculateDistance a b) = is_nan (calculateDistance b a)
  ∧ (is_nan (calculateDistance a b) = false →
     calculateDistance a b = calculateDistance b a
     ∧ F32.eqb (calculateDistance a b) (calculateDistance b a) = true).
Proof.
  rewrite <- (calculateDistance_comm a b). split; [reflexivity|].
  intros Hn. split; [reflexivity|].
  apply SFeqb_refl. by destruct (calculateDistance a b).
Qed.

(** [calculateDistance] never returns a number below zero: for any two
    nodes the result compares [< 0] false. *)
Theorem calculateDistance_never_negative (a b : EmotionNode.t) :
  not_negative (calculateDistance a b) = true
  ∧ F32.ltb (calculateDistance a b) F32.zero = false.
Proof.
  assert (not_negative (calculateDistance a b) = true) as H.
  { apply SFsqrt_not_negative. }
  split; [exact H|]. apply SFltb_not_negative; [exact H|by left].
Qed.
End DistanceEverywhere.

(** The theorem at "terror" and the low tier of "contentment". *)
Lemma calculateDistance_symmetric_everywhere_witness :
  Laws.is_nan
    (EmotionEngine.calculateDistance Spec.terrorNode Spec.contentmentLowNode)
  = false
  ∧ F32.eqb
      (EmotionEngine.calculateDistance Spec.terrorNode
         Spec.contentmentLowNode)
      (EmotionEngine.calculateDistance Spec.contentmentLowNode
         Spec.terrorNode)
    = true.
Proof.
  assert (Laws.is_nan
            (EmotionEngine.calculateDistance Spec.terrorNode
               Spec.contentmentLowNode) = false) as Hn
    by (vm_compute; reflexivity).
  split; [exact Hn|].
  destruct (calculateDistance_symmetric_everywhere Spec.terrorNode
              Spec.contentmentLowNode) as [_ H].
  destruct (H Hn) as [_ He]. exact He.
Defined.

Section NearbyEverywhere.
Import EmotionEngine Spec Laws.
Context `{!Traversal}.

Lemma getNearbyEmotions_nil_intro self i t :
  (∀ e, e ∉ getNearbyEmotions self i t) → getNearbyEmotions self i t = [].
Proof.
  destruct (getNearbyEmotions self i t) as [|e l]; [done|].
  intros Hn. destruct (Hn e). left.
Qed.

(** With a threshold that is zero, negative or NaN, [getNearbyEmotions]
    returns nothing, on any engine and for any id. *)
Theorem getNearbyEmotions_nonpositive_threshold self i t :
  leb t F32.zero = true ∨ is_nan t = true →
  getNearbyEmotions self i t = [].
Proof.
  intros Ht. destruct (getEmotion self i) as [source|] eqn:Hs;
    [|by apply getNearbyEmotions_None].
  apply getNearbyEmotions_nil_intro. intros e.
  rewrite (elem_of_getNearbyEmotions _ _ _ _ _ Hs).
  intros (k & _ & _ & Hlt). unfold F32.ltb in Hlt.
  rewrite SFltb_not_negative in Hlt; [done| |exact Ht].
  apply SFsqrt_not_negative.
Qed.

(** Being a neighbour is mutual: of two entries stored under different
    ids, each is in the neighbourhood of the other for a threshold, or
    neither is. *)
Theorem getNearbyEmotions_mutual self i j a b t :
  i ≠ j →
  getEmotion self i = Some a →
  getEmotion self j = Some b →
  b ∈ getNearbyEmotions self i t ↔ a ∈ getNearbyEmotions self j t.
Proof.
  intros Hij Ha Hb.
  rewrite (elem_of_getNearbyEmotions _ _ _ _ _ Ha),
    (elem_of_getNearbyEmotions _ _ _ _ _ Hb).
  rewrite (calculateDistance_comm b a). split.
  - intros (_ & _ & _ & Hlt). exists i. by repeat split.
  - intros (_ & _ & _ & Hlt). exists j. by repeat split.
Qed.

(** Neighbourhoods grow with the threshold: what is returned for a
    threshold is returned for every threshold at least as large. *)
Theorem getNearbyEmotions_monotone self i t1 t2 e :
  leb t1 t2 = true →
  e ∈ getNearbyEmotions self i t1 → e ∈ getNearbyEmotions self i t2.
Proof.
  intros Ht. destruct (getEmotion self i) as [source|] eqn:Hs.
  - rewrite !(elem_of_getNearbyEmotions _ _ _ _ _ Hs).
    intros (k & Hk & He & Hlt). exists k. split; [done|]. split; [done|].
    by eapply SFltb_leb_trans.
  - rewrite (getNearbyEmotions_None _ _ t1 Hs). by intros ?%elem_of_nil.
Qed.

Lemma filter_all {A} (P : A → Prop) `{!∀ x, Decision (P x)} (l : list A) :
  (∀ x, x ∈ l → P x) → filter P l = l.
Proof.
  induction l as [|x l IH]; intros Hl; [done|].
  rewrite filter_cons, decide_True by (apply Hl; left).
  f_equal. apply IH. intros y Hy. apply Hl. by right.
Qed.

(** On a constructed engine, with plus infinity as threshold,
    [getNearbyEmotions] returns all the other 215 entries. *)
Theorem getNearbyEmotions_unbounded_threshold i source :
  catalog !! i = Some source →
  (∀ e, e ∈ getNearbyEmotions new i (S754_infinity false)
        ↔ ∃ k, k ≠ i ∧ catalog !! k = Some e)
  ∧ length (getNearbyEmotions new i (S754_infinity false)) = 215%nat.
Proof.
  intros Hs.
  assert (∀ k e, catalog !! k = Some e →
            F32.ltb (calculateDistance source e) (S754_infinity false) = true)
    as Hfin.
  { intros k e He. destruct (catalog_distance i k source e Hs He) as [Hf _].
    by destruct (calculateDistance source e) as [|[|]| |[|]]. }
  split.
  - intros e. unfold catalog in *.
    rewrite (elem_of_getNearbyEmotions _ _ _ _ _ Hs). split.
    + intros (k & Hk & He & _). exists k. split; assumption.
    + intros (k & Hk & He). exists k. split; [assumption|].
      split; [assumption|]. exact (Hfin k e He).
  - unfold catalog in *.
    rewrite (getNearbyEmotions_Some _ _ _ _ Hs), length_fmap.
    rewrite <- (map_to_list_delete _ _ _ Hs), filter_cons.
    rewrite decide_False by (intros [Hk _]; by apply Hk).
    rewrite filter_all.
    + rewrite length_map_to_list, map_size_delete_Some by (by eexists).
      fold catalog. rewrite catalog_size. reflexivity.
    + intros [k e] [Hk He]%elem_of_map_to_list%lookup_delete_Some.
      split; [intros E; apply Hk; symmetry; exact E|]. exact (Hfin k e He).
Qed.
End NearbyEverywhere.

(** The theorem at a negative threshold, on the constructed engine. *)
Lemma getNearbyEmotions_nonpositive_threshold_witness :
  @EmotionEngine.getNearbyEmotions EmotionEngine.map_order
    EmotionEngine.new 24 (F32.opp F32.one) = [].
Proof.
  apply (@getNearbyEmotions_nonpositive_threshold EmotionEngine.map_order).
  left. vm_compute. reflexivity.
Defined.

(** The theorem at "cheerfulness" and "delight", threshold 0.5. *)
Lemma getNearbyEmotions_mutual_witness :
  Spec.entry 9 (Joy, EmotionEngine.V "delight" 80 70, F32.centi 100)
    ∈ @EmotionEngine.getNearbyEmotions EmotionEngine.map_order
        EmotionEngine.new 24 (F32.centi 50)
  ↔ Spec.entry 24 (Joy, EmotionEngine.V "cheerfulness" 60 50, F32.centi 100)
    ∈ @EmotionEngine.getNearbyEmotions EmotionEngine.map_order
        EmotionEngine.new 9 (F32.centi 50).
Proof.
  apply (@getNearbyEmotions_mutual EmotionEngine.map_order
           EmotionEngine.new 24 9).
  - lia.
  - vm_compute. reflexivity.
  - vm_compute. reflexivity.
Defined.

(** The theorem from threshold 0.2 to threshold 0.5: "happiness" is that
    close to "delight". *)
Lemma getNearbyEmotions_monotone_witness :
  Laws.leb (F32.centi 20) (F32.centi 50) = true
  ∧ Spec.entry 12 (Joy, EmotionEngine.V "happiness" 70 60, F32.centi 100)
    ∈ @EmotionEngine.getNearbyEmotions EmotionEngine.map_order
        EmotionEngine.new 9 (F32.centi 50).
Proof.
  split; [vm_compute; reflexivity|].
  apply (@getNearbyEmotions_monotone EmotionEngine.map_order
           EmotionEngine.new 9 (F32.centi 20) (F32.centi 50)).
  - vm_compute. reflexivity.
  - apply (@elem_of_getNearbyEmotions EmotionEngine.map_order
             EmotionEngine.new 9 (F32.centi 20)
             (Spec.entry 9
                (Joy, EmotionEngine.V "delight" 80 70, F32.centi 100))).
    + vm_compute. reflexivity.
    + exists 12. split; [lia|]. split; vm_compute; reflexivity.
Defined.

(** The theorem at "euphoria". *)
Lemma getNearbyEmotions_unbounded_threshold_witness :
  length (@EmotionEngine.getNearbyEmotions EmotionEngine.map_order
            EmotionEngine.new 0 (S754_infinity false)) = 215%nat.
Proof.
  eapply (@getNearbyEmotions_unbounded_threshold EmotionEngine.map_order 0).
  vm_compute. reflexivity.
Defined.

(** ** Lookups, on any engine *)

Section LookupEverywhere.
Import EmotionEngine Spec Laws.
Context `{!Traversal}.

(** On any engine and for any order of the scan: what
    [findEmotionByName] returns is an entry of the engine with exactly the
    name asked for, and it returns "not found" exactly when no entry has
    that name. *)
Theorem findEmotionByName_sound_complete self s :
  (∀ n, findEmotionByName self s = Some n →
        EmotionNode.name n = s ∧ ∃ k, getEmotion self k = Some n)
  ∧ (findEmotionByName self s = None
     ↔ ∀ k n, getEmotion self k = Some n → EmotionNode.name n ≠ s).
Proof.
  split.
  - intros n. apply findEmotionByName_Some.
  - apply findEmotionByName_None.
Qed.

(** On a constructed engine the two lookups invert each other: the entry
    found under an id is the one found under its name, and the entry found
    under a name is the one stored under its id. *)
Theorem catalog_lookups_round_trip :
  (∀ i n, getEmotion new i = Some n →
          findEmotionByName new (EmotionNode.name n) = Some n
          ∧ EmotionNode.id n = i)
  ∧ (∀ s n, findEmotionByName new s = Some n →
            getEmotion new (EmotionNode.id n) = Some n
            ∧ EmotionNode.name n = s).
Proof.
  split.
  - intros i n Hi. split.
    + exact (findEmotionByName_catalog i n Hi).
    + exact (catalog_keyed_by_id i n Hi).
  - intros s n [Hn [k Hk]]%findEmotionByName_Some. split; [|exact Hn].
    unfold getEmotion. fold catalog in Hk |- *.
    rewrite (catalog_keyed_by_id k n Hk). exact Hk.
Qed.

(** [initializeEmotions] writes the keys 0 to 215 and no other: on any
    map it leaves the catalog entry under each of these keys, keeps what
    was stored under every other key, and running it again changes
    nothing. *)
Theorem initializeEmotions_overwrites (m : gmap Z EmotionNode.t) :
  (∀ k, 0 ≤ k < 216 → initializeEmotions m !! k = catalog !! k)
  ∧ (∀ k, ¬ (0 ≤ k < 216) → initializeEmotions m !! k = m !! k)
  ∧ initializeEmotions (initializeEmotions m) = initializeEmotions m.
Proof.
  split; [|split].
  - intros k Hk. rewrite initializeEmotions_lookup, catalog_lookup.
    by rewrite !decide_True.
  - intros k Hk. rewrite initializeEmotions_lookup. by rewrite decide_False.
  - apply map_eq. intros k. rewrite !initializeEmotions_lookup.
    by case_decide.
Qed.
End LookupEverywhere.

(** Where no two entries share a name, the answer of [findEmotionByName]
    is the same for every order in which the container is scanned. *)
Theorem findEmotionByName_order_independent
    (T1 T2 : EmotionEngine.Traversal) self s :
  Spec.unique_names (EmotionEngine.nodes_ self) →
  @EmotionEngine.findEmotionByName T1 self s
  = @EmotionEngine.findEmotionByName T2 self s.
Proof.
  intros Hu.
  destruct (@EmotionEngine.findEmotionByName T1 self s) as [n|] eqn:E1.
  - apply (@findEmotionByName_Some T1) in E1 as [<- [k Hk]].
    symmetry. by apply (@findEmotionByName_unique T2 self k).
  - symmetry. apply (@findEmotionByName_None T2).
    by apply (@findEmotionByName_None T1).
Qed.

(** The theorem on the constructed engine, scanned forwards and
    backwards. *)
Lemma findEmotionByName_order_independent_witness :
  @EmotionEngine.findEmotionByName EmotionEngine.map_order
    EmotionEngine.new "rage_mid"
  = @EmotionEngine.findEmotionByName Laws.reverse_order
      EmotionEngine.new "rage_mid".
Proof.
  apply findEmotionByName_order_independent.
  exact catalog_unique_names.
Defined.

(** Where two different entries share a name, which of them
    [findEmotionByName] returns depends on the order of the scan: one order
    gives the one, another order the other. *)
Theorem findEmotionByName_duplicates_order_dependent self i j a b :
  EmotionEngine.getEmotion self i = Some a →
  EmotionEngine.getEmotion self j = Some b →
  EmotionNode.name a = EmotionNode.name b →
  a ≠ b →
  @EmotionEngine.findEmotionByName (Laws.front_order i) self
    (EmotionNode.name a) = Some a
  ∧ @EmotionEngine.findEmotionByName (Laws.front_order j) self
      (EmotionNode.name a) = Some b.
Proof.
  unfold EmotionEngine.getEmotion, EmotionEngine.findEmotionByName.
  intros Ha Hb E _. cbn [EmotionEngine.iterate Laws.front_order].
  rewrite Ha, Hb. cbn [EmotionEngine.findIn].
  by rewrite <- E, String.eqb_refl.
Qed.

(** The theorem on two entries named "echo". *)
Lemma findEmotionByName_duplicates_order_dependent_witness :
  @EmotionEngine.findEmotionByName (Laws.front_order 0) Laws.twins "echo"
  = EmotionEngine.getEmotion Laws.twins 0
  ∧ @EmotionEngine.findEmotionByName (Laws.front_order 1) Laws.twins "echo"
    = EmotionEngine.getEmotion Laws.twins 1.
Proof.
  assert (EmotionEngine.getEmotion Laws.twins 0
          = Some (EmotionEngine.makeNode 0 Sadness
                    (EmotionEngine.V "echo" (-50) 50) (F32.centi 100))) as H0
    by (vm_compute; reflexivity).
  assert (EmotionEngine.getEmotion Laws.twins 1
          = Some (EmotionEngine.makeNode 1 Joy
                    (EmotionEngine.V "echo" 50 50) (F32.centi 100))) as H1
    by (vm_compute; reflexivity).
  rewrite H0, H1.
  apply (findEmotionByName_duplicates_order_dependent Laws.twins 0 1
           _ _ H0 H1).
  - vm_compute. reflexivity.
  - vm_compute. discriminate.
Defined.

(** ** The entries of the catalog *)

Section CatalogEntries.
Import EmotionEngine IntentProcessor Spec Laws.

Lemma catalog_forallb (check : EmotionNode.t → bool) i n :
  forallb check entries = true → catalog !! i = Some n → check n = true.
Proof.
  intros Hall Hi. rewrite forallb_forall in Hall.
  by apply Hall, list_elem_of_In, (elem_of_entries i).
Qed.

Lemma between_spec lo hi x :
  between lo hi x = true ↔ leb lo x = true ∧ leb x hi = true.
Proof. unfold between. by rewrite andb_true_iff. Qed.

(** Every entry of the catalog has its coordinates in range: the valence
    within [-1, 1], the arousal within [0, 1], the intensity one of 1.0,
    0.6 and 0.3, the tempo modifier within [0.75, 1.25], and [dynamics]
    equal to the intensity. *)
Theorem catalog_entries_in_range i n :
  catalog !! i = Some n →
  let attrs := EmotionNode.musicalAttributes n in
  (leb (F32.opp F32.one) (EmotionNode.valence n) = true
   ∧ leb (EmotionNode.valence n) F32.one = true)
  ∧ (leb F32.zero (EmotionNode.arousal n) = true
     ∧ leb (EmotionNode.arousal n) F32.one = true)
  ∧ EmotionNode.intensity n ∈ intensityLevels
  ∧ (leb (F32.centi 75) (MusicalAttributes.tempoModifier attrs) = true
     ∧ leb (MusicalAttributes.tempoModifier attrs) (F32.centi 125) = true)
  ∧ MusicalAttributes.dynamics attrs = EmotionNode.intensity n.
Proof.
  intros Hi attrs.
  assert (forallb in_ranges entries = true) as Hall
    by (vm_compute; reflexivity).
  pose proof (catalog_forallb _ i n Hall Hi) as Hn. unfold in_ranges in Hn.
  rewrite !andb_true_iff, !between_spec in Hn.
  destruct Hn as ((((Hv & Ha) & _) & Ht) & _).
  split; [exact Hv|]. split; [exact Ha|].
  apply catalog_lookup_Some in Hi as (_ & x & Hx & ->).
  split; [|split; [exact Ht|reflexivity]].
  apply list_elem_of_lookup_2 in Hx. unfold generationOrder in Hx.
  apply list_elem_of_bind in Hx as (cv & Hx & _).
  apply list_elem_of_bind in Hx as (v & Hx & _).
  apply list_elem_of_bind in Hx as (lvl & Hx & Hl).
  apply list_elem_of_singleton in Hx as ->. exact Hl.
Qed.

(** Scaling keeps the sign: the mode of every entry of the catalog is
    "major" exactly when the entry's own, scaled valence is above zero. *)
Theorem catalog_mode_follows_valence i n :
  catalog !! i = Some n →
  MusicalAttributes.mode (EmotionNode.musicalAttributes n)
  = if F32.gtb (EmotionNode.valence n) F32.zero then "major" else "minor".
Proof.
  intros Hi.
  assert (forallb mode_follows_valence entries = true) as Hall
    by (vm_compute; reflexivity).
  pose proof (catalog_forallb _ i n Hall Hi) as Hn.
  by apply bool_decide_eq_true in Hn.
Qed.

Lemma breaks_any_self n self : (emotionToRuleBreaks n self).1 = breaks n.
Proof. reflexivity. Qed.

(** On the entries of the catalog every rule break has a severity within
    [0, 1], as the declaration of [RuleBreak] asks. *)
Theorem catalog_severity_in_unit i n self rb :
  catalog !! i = Some n →
  rb ∈ (emotionToRuleBreaks n self).1 →
  leb F32.zero (RuleBreak.severity rb) = true
  ∧ leb (RuleBreak.severity rb) F32.one = true.
Proof.
  intros Hi Hrb. rewrite breaks_any_self in Hrb.
  assert (forallb severities_in_unit entries = true) as Hall
    by (vm_compute; reflexivity).
  pose proof (catalog_forallb _ i n Hall Hi) as Hn.
  unfold severities_in_unit in Hn. rewrite forallb_forall in Hn.
  apply between_spec, Hn, list_elem_of_In, Hrb.
Qed.

(** What a tier allows, on the entries of the catalog: a base-tier entry
    always gets "dynamics", first; a middle-tier entry gets "harmony" or
    nothing; a low-tier entry gets no rule break at all. *)
Theorem catalog_rule_breaks_by_tier i n self :
  catalog !! i = Some n →
  let types := RuleBreak.ruleType <$> (emotionToRuleBreaks n self).1 in
  (EmotionNode.intensity n = F32.centi 100 → head types = Some "dynamics")
  ∧ (EmotionNode.intensity n = F32.centi 60 →
     types = [] ∨ types = ["harmony"])
  ∧ (EmotionNode.intensity n = F32.centi 30 → types = []).
Proof.
  intros Hi types. unfold types. rewrite breaks_any_self.
  assert (forallb tier_rule entries = true) as Hall
    by (vm_compute; reflexivity).
  pose proof (catalog_forallb _ i n Hall Hi) as Hn. unfold tier_rule in Hn.
  cbv zeta in Hn.
  split; [|split]; intros E; rewrite E in Hn;
    [ replace (F32.eqb (F32.centi 100) (F32.centi 100)) with true in Hn
        by (vm_compute; reflexivity)
    | replace (F32.eqb (F32.centi 60) (F32.centi 100)) with false in Hn
        by (vm_compute; reflexivity);
      replace (F32.eqb (F32.centi 60) (F32.centi 60)) with true in Hn
        by (vm_compute; reflexivity)
    | replace (F32.eqb (F32.centi 30) (F32.centi 100)) with false in Hn
        by (vm_compute; reflexivity);
      replace (F32.eqb (F32.centi 30) (F32.centi 60)) with false in Hn
        by (vm_compute; reflexivity) ];
    by apply bool_decide_eq_true in Hn.
Qed.
End CatalogEntries.

(** The theorem at "terror". *)
Lemma catalog_entries_in_range_witness :
  EmotionNode.intensity Spec.terrorNode ∈ EmotionEngine.intensityLevels.
Proof.
  assert (Spec.catalog !! 81 = Some Spec.terrorNode) as H
    by (vm_compute; reflexivity).
  destruct (catalog_entries_in_range 81 _ H) as (_ & _ & Hl & _).
  exact Hl.
Defined.

(** The theorem at "terror". *)
Lemma catalog_mode_follows_valence_witness :
  MusicalAttributes.mode (EmotionNode.musicalAttributes Spec.terrorNode)
  = if F32.gtb (EmotionNode.valence Spec.terrorNode) F32.zero
    then "major" else "minor".
Proof.
  apply (catalog_mode_follows_valence 81). vm_compute. reflexivity.
Defined.

(** The theorem at the "harmony" break of "terror". *)
Lemma catalog_severity_in_unit_witness :
  Laws.leb F32.zero
    (RuleBreak.severity (IntentProcessor.harmonyBreak Spec.terrorNode)) = true
  ∧ Laws.leb
      (RuleBreak.severity (IntentProcessor.harmonyBreak Spec.terrorNode))
      F32.one = true.
Proof.
  apply (catalog_severity_in_unit 81 Spec.terrorNode Laws.blank).
  - vm_compute. reflexivity.
  - apply list_elem_of_In. vm_compute. right. left. reflexivity.
Defined.

(** The theorem at the low tier of "contentment". *)
Lemma catalog_rule_breaks_by_tier_witness :
  RuleBreak.ruleType
    <$> (IntentProcessor.emotionToRuleBreaks Spec.contentmentLowNode
           Laws.blank).1 = [].
Proof.
  assert (Spec.catalog !! 17 = Some Spec.contentmentLowNode) as H
    by (vm_compute; reflexivity).
  destruct (catalog_rule_breaks_by_tier 17 _ Laws.blank H) as (_ & _ & Hl).
  apply Hl. vm_compute. reflexivity.
Defined.

(** ** The pipeline, call by call *)

Section ParametersEverywhere.
Import IntentProcessor Spec Laws.

Lemma compileMusicalParams_lookup emotion rbs key :
  compileMusicalParams emotion rbs !! key
  = match
      last (omap (λ rb, RuleBreak.musicalImpact rb !! key) rbs)
    with
    | Some value => Some value
    | None => baseParams emotion !! key
    end.
Proof.
  induction rbs as [|rb rbs IH] using rev_ind.
  { by rewrite compileMusicalParams_nil. }
  rewrite compileMusicalParams_snoc, lookup_union, omap_app.
  cbn [omap list_omap].
  destruct (RuleBreak.musicalImpact rb !! key) as [value|] eqn:E.
  - rewrite last_snoc.
    by destruct (compileMusicalParams emotion rbs !! key).
  - rewrite app_nil_r, <- IH.
    by destruct (compileMusicalParams emotion rbs !! key).
Qed.

(** The keys of the mapping [compileMusicalParams] returns are the three
    base keys and the keys of the rule breaks, no others and all of
    these; of a key the value is the one of the last rule break that has
    it and, where none has it, the base value. *)
Theorem compileMusicalParams_keys_and_values emotion rbs key :
  (is_Some (compileMusicalParams emotion rbs !! key)
   ↔ key ∈ ["tempo_modifier"; "mode"; "dynamics"]
     ∨ ∃ rb, rb ∈ rbs ∧ is_Some (RuleBreak.musicalImpact rb !! key))
  ∧ compileMusicalParams emotion rbs !! key
    = match
        last (omap (λ rb, RuleBreak.musicalImpact rb !! key) rbs)
      with
      | Some value => Some value
      | None => baseParams emotion !! key
      end.
Proof.
  split; [|apply compileMusicalParams_lookup].
  induction rbs as [|rb rbs IH] using rev_ind.
  - rewrite compileMusicalParams_nil. unfold baseParams. cbv zeta.
    rewrite !lookup_insert_is_Some, lookup_empty, !elem_of_cons, elem_of_nil.
    split.
    + intros [<-|[_ [<-|[_ [<-|[_ Hn]]]]]]; [by auto..|].
      by destruct Hn.
    + intros [[->|[->|[->|[]]]]|(rb & Hin & _)].
      * right. split; [done|]. right. split; [done|]. by left.
      * right. split; [done|]. by left.
      * by left.
      * by apply elem_of_nil in Hin.
  - rewrite compileMusicalParams_snoc, lookup_union_is_Some, IH. split.
    + intros [Hrb|[Hk|(rb' & Hin & Hrb)]].
      * right. exists rb. split; [|done]. apply elem_of_app. right. by left.
      * by left.
      * right. exists rb'. split; [|done]. apply elem_of_app. by left.
    + intros [Hk|(rb' & [Hin|Hin%list_elem_of_singleton]%elem_of_app & Hrb)].
      * right. by left.
      * right. right. by exists rb'.
      * subst rb'. by left.
Qed.

Lemma omap_none {A B} (f : A → option B) (l : list A) :
  (∀ x, x ∈ l → f x = None) → omap f l = [].
Proof.
  induction l as [|x l IH]; intros Hl; [done|]. cbn [omap list_omap].
  rewrite (Hl x) by left. apply IH. intros y Hy. apply Hl. by right.
Qed.

Lemma emotionToRuleBreaks_elem emotion self rb :
  rb ∈ (emotionToRuleBreaks emotion self).1 →
  rb = dynamicsBreak emotion ∨ rb = harmonyBreak emotion
  ∨ rb = rhythmBreak emotion.
Proof.
  rewrite emotionToRuleBreaks_unfold. cbv zeta. cbn [fst]. unfold push_if.
  repeat match goal with |- context [if ?c then _ else _] => destruct c end;
    cbn [app]; rewrite ?elem_of_cons, ?elem_of_nil; intuition.
Qed.

(** The rule breaks of [emotionToRuleBreaks] leave the base entries
    alone: compiled with them, the mapping still carries, under
    [tempo_modifier], [mode] and [dynamics], the musical attributes of the
    node, for every node. *)
Theorem base_parameters_survive emotion self :
  let attrs := EmotionNode.musicalAttributes emotion in
  let params :=
    compileMusicalParams emotion (emotionToRuleBreaks emotion self).1 in
  params !! "tempo_modifier"
  = Some (AnyFloat (MusicalAttributes.tempoModifier attrs))
  ∧ params !! "mode" = Some (AnyString (MusicalAttributes.mode attrs))
  ∧ params !! "dynamics" = Some (AnyFloat (MusicalAttributes.dynamics attrs)).
Proof.
  intros attrs params. unfold params.
  assert (∀ key, key ∈ ["tempo_modifier"; "mode"; "dynamics"] →
            compileMusicalParams emotion (emotionToRuleBreaks emotion self).1
              !! key
            = baseParams emotion !! key) as Hbase.
  { intros key Hkey. rewrite compileMusicalParams_lookup, omap_none; [done|].
    intros rb [-> | [-> | ->]]%emotionToRuleBreaks_elem;
      repeat (apply elem_of_cons in Hkey as [->|Hkey]; [reflexivity|]);
      by apply elem_of_nil in Hkey. }
  rewrite !Hbase by (rewrite !elem_of_cons; auto).
  done.
Qed.

(** [processIntent] reads of a wound the description only, and of the
    description its lower-case form only: two wounds whose descriptions
    differ in the case of letters, in intensity or in source get the same
    emotion, the same rule breaks and the same mapping. *)
Theorem processIntent_reads_lowercase_description
    `{!EmotionEngine.Traversal} w1 w2 self :
  transform tolower (Wound.description w1)
  = transform tolower (Wound.description w2) →
  let r1 := (processIntent w1 self).1 in
  let r2 := (processIntent w2 self).1 in
  IntentResult.emotion r1 = IntentResult.emotion r2
  ∧ IntentResult.ruleBreaks r1 = IntentResult.ruleBreaks r2
  ∧ IntentResult.musicalParams r1 = IntentResult.musicalParams r2.
Proof.
  intros E r1 r2. unfold r1, r2. rewrite !processIntent_unfold. cbv zeta.
  rewrite !processWound_unfold. cbn [fst snd]. cbv zeta. rewrite E.
  by destruct (EmotionEngine.findEmotionByName _ _).
Qed.

Lemma transform_app f s1 s2 :
  transform f (s1 +:+ s2) = transform f s1 +:+ transform f s2.
Proof.
  induction s1 as [|c s1 IH]; [done|].
  simpl. by rewrite IH.
Qed.

(** The first rule of the classification looks for its keywords in any
    mix of upper and lower case and anywhere in the description, inside
    longer words too: on a constructed pipeline a description that
    contains any spelling of "loss" or "grief", that is, a piece whose
    lower case is one of the two words, is answered with the entry
    "grief", whatever else it contains. *)
Theorem processWound_keyword_any_case
    `{!EmotionEngine.Traversal} pre keyword post intensity source history log :
  lowercase keyword = "loss" ∨ lowercase keyword = "grief" →
  (processWound (Wound.mk (pre +:+ keyword +:+ post) intensity source)
     (mk EmotionEngine.new history log)).1
  = Some griefNode.
Proof.
  rewrite <- !transform_tolower_lowercase.
  intros Hk. rewrite processWound_unfold. cbn [fst engine_ Wound.description].
  cbv zeta. rewrite !transform_app.
  assert (found (transform tolower pre +:+ transform tolower keyword
                 +:+ transform tolower post) "loss"
          || found (transform tolower pre +:+ transform tolower keyword
                    +:+ transform tolower post) "grief" = true) as ->.
  { apply found_or. destruct Hk as [->| ->]; [left|right]; by eexists _, _. }
  apply find_grief.
Qed.
End ParametersEverywhere.

(** The theorem at two spellings of one description. *)
Lemma processIntent_reads_lowercase_description_witness :
  IntentResult.emotion
    (@IntentProcessor.processIntent EmotionEngine.map_order
       (Wound.mk "Pure RAGE inside" F32.one "diary") IntentProcessor.new).1
  = IntentResult.emotion
      (@IntentProcessor.processIntent EmotionEngine.map_order
         (Wound.mk "pure rage inside" F32.zero "letter")
         IntentProcessor.new).1.
Proof.
  apply (@processIntent_reads_lowercase_description EmotionEngine.map_order).
  reflexivity.
Defined.

(** The theorem at "BLoSsoms of RAGE", which contains a spelling of
    "loss" in mixed case, and "rage" after it. *)
Lemma processWound_keyword_any_case_witness :
  Spec.lowercase "LoSs" = "loss"
  ∧ (@IntentProcessor.processWound EmotionEngine.map_order
       (Wound.mk "BLoSsoms of RAGE" F32.one "diary") IntentProcessor.new).1
    = Some Spec.griefNode.
Proof.
  split; [reflexivity|].
  apply (@processWound_keyword_any_case EmotionEngine.map_order
           "B" "LoSs" "oms of RAGE").
  left. reflexivity.
Defined.

Section PipelineEverywhere.
Import IntentProcessor Spec Laws.
Context `{!EmotionEngine.Traversal}.

Lemma processIntent_found wound self e :
  (processWound wound self).1 = Some e →
  (processIntent wound self).1
  = IntentResult.mk wound (Some e) (breaks e)
      (compileMusicalParams e (breaks e)).
Proof.
  intros E. rewrite processIntent_unfold. cbv zeta. by rewrite E.
Qed.

(** On a constructed pipeline [processIntent] has four answers only.
    Whatever the wound, the emotion is the base tier of "grief", "rage",
    "anxiety" or "melancholy", and the rule breaks are, in this order,
    "dynamics" and "harmony" for "grief" and "melancholy", all three for
    "rage", "dynamics" and "rhythm" for "anxiety": every result has two
    or three rule breaks, the first of them "dynamics". *)
Theorem processIntent_four_answers wound history log :
  let result := (processIntent wound (mk EmotionEngine.new history log)).1 in
  let types := RuleBreak.ruleType <$> IntentResult.ruleBreaks result in
  (IntentResult.emotion result = Some griefNode
   ∧ types = ["dynamics"; "harmony"])
  ∨ (IntentResult.emotion result = Some rageNode
     ∧ types = ["dynamics"; "harmony"; "rhythm"])
  ∨ (IntentResult.emotion result = Some anxietyNode
     ∧ types = ["dynamics"; "rhythm"])
  ∨ (IntentResult.emotion result = Some melancholyNode
     ∧ types = ["dynamics"; "harmony"]).
Proof.
  intros result types. unfold types, result. clear types result.
  assert (∀ e, (processWound wound (mk EmotionEngine.new history log)).1
               = Some e →
            IntentResult.emotion
              (processIntent wound (mk EmotionEngine.new history log)).1
            = Some e
            ∧ RuleBreak.ruleType
                <$> IntentResult.ruleBreaks
                      (processIntent wound
                         (mk EmotionEngine.new history log)).1
              = RuleBreak.ruleType <$> breaks e) as Hfound.
  { intros e E. by rewrite (processIntent_found _ _ _ E). }
  pose proof (processWound_unfold wound (mk EmotionEngine.new history log))
    as Hw.
  apply (f_equal fst) in Hw. cbn [fst engine_] in Hw. cbv zeta in Hw.
  destruct (found _ "loss" || found _ "grief");
    [|destruct (found _ "anger" || found _ "rage");
      [|destruct (found _ "fear" || found _ "anxiety")]].
  - rewrite find_grief in Hw. destruct (Hfound _ Hw) as [-> ->].
    left. split; [done|]. vm_compute. reflexivity.
  - rewrite find_rage in Hw. destruct (Hfound _ Hw) as [-> ->].
    right. left. split; [done|]. vm_compute. reflexivity.
  - rewrite find_anxiety in Hw. destruct (Hfound _ Hw) as [-> ->].
    right. right. left. split; [done|]. vm_compute. reflexivity.
  - rewrite find_melancholy in Hw. destruct (Hfound _ Hw) as [-> ->].
    right. right. right. split; [done|]. vm_compute. reflexivity.
Qed.

Lemma returned_engine c s1 s2 :
  engine_ s1 = engine_ s2 → returned s1 c = returned s2 c.
Proof.
  intros E. destruct c as [wound|emotion|wound]; cbn [returned]; [done..|].
  by rewrite (processIntent_engine wound s1 s2 E).
Qed.

Lemma wounds_of_cons c calls :
  wounds_of (c :: calls) = wounds_of [c] ++ wounds_of calls.
Proof.
  unfold wounds_of. rewrite !bind_cons.
  change (([] : list Call) ≫= _) with ([] : list Wound.t).
  by rewrite app_nil_r.
Qed.

Lemma call_logs c self :
  woundHistory_ (call c self) = woundHistory_ self ++ wounds_of [c]
  ∧ ruleBreaks_ (call c self) = ruleBreaks_ self ++ returned self c.
Proof.
  destruct c as [wound|emotion|wound]; cbn [call returned].
  - rewrite processWound_state. cbn. by rewrite app_nil_r.
  - rewrite emotionToRuleBreaks_unfold. cbv zeta. cbn. by rewrite app_nil_r.
  - destruct (processIntent_state wound self) as (_ & -> & ->). done.
Qed.

(** The two logs record the calls exactly. After any sequence of calls
    the wound history is the history before, followed by the wounds
    handed to [processWound] and [processIntent], in the order of the
    calls, and the rule-break log is the log before, followed by the rule
    breaks the calls returned, call after call. *)
Theorem logs_record_the_calls calls self :
  woundHistory_ (run calls self) = woundHistory_ self ++ wounds_of calls
  ∧ ruleBreaks_ (run calls self)
    = ruleBreaks_ self ++ (calls ≫= returned self)
  ∧ length (woundHistory_ (run calls self))
    = (length (woundHistory_ self) + length (wounds_of calls))%nat.
Proof.
  assert (woundHistory_ (run calls self)
          = woundHistory_ self ++ wounds_of calls
          ∧ ruleBreaks_ (run calls self)
            = ruleBreaks_ self ++ (calls ≫= returned self)) as [Hw Hr].
  { unfold run. revert self.
    induction calls as [|c calls IH]; intros self; cbn [foldl].
    { split; by rewrite app_nil_r. }
    destruct (IH (call c self)) as [-> ->].
    destruct (call_logs c self) as [-> ->].
    destruct (call_state c self) as [E _].
    rewrite <- !app_assoc. split; [by rewrite (wounds_of_cons c calls)|].
    rewrite bind_cons. do 2 f_equal.
    clear IH. induction calls as [|c' calls IH]; [reflexivity|].
    rewrite !bind_cons, IH. by rewrite (returned_engine c' _ _ E). }
  split; [exact Hw|]. split; [exact Hr|].
  by rewrite Hw, length_app.
Qed.
End PipelineEverywhere.
